(** * PHI linter (scripts/phi_linter.py): a shallow embedding and its properties

    The program, in the order of the script and of what it calls:

    - [Text]      the [str] operations the linter uses ([strip], [lower],
                  [startswith], [in], slicing, [join]);
    - [Pathlib]   the attributes of [pathlib.Path] it reads ([name],
                  [suffix]);
    - [Re]        the fragment of Python's [re] the pattern catalog is written
                  in: a parser of the pattern syntax, a backtracking matcher
                  under [re.IGNORECASE], and the search loop of [finditer];
    - [Py]        mutable state and exceptions, as a small monad;
    - [World]     what a run meets outside the program: the file system;
    - [PHILinter] the class, method by method, and [main].

    - [Cli]       the command line of [main], as [argparse] hands it over.

    Then the vocabulary of the properties ([TextSpec], [ReSpec], [ScanSpec],
    [WalkSpec], [FilterSpec], [FurtherSpec], and sample worlds), the lemmas,
    the properties C1 to C10, and last further properties of the linter,
    X1 to X18.

    Text is a [string] of characters of the ASCII range: this is where
    [str.lower], [str.strip] and the classes [\d], [\s], [\w], [\b] are
    modelled. Paths are POSIX paths. *)

From Stdlib Require Import Bool Arith Lia List NArith.
From Stdlib Require Import Ascii String DecimalString Permutation.
Import ListNotations.

Open Scope list_scope.
Open Scope string_scope.

(* ================================================================== *)
(** ** Text: the [str] methods used by the linter *)

Module Text.

Definition code (c : ascii) : N := N_of_ascii c.

Definition between (lo hi : N) (c : ascii) : bool :=
  (lo <=? code c)%N && (code c <=? hi)%N.

(** [str.isspace] on the ASCII range: TAB, LF, VT, FF, CR, the four
    separators FS, GS, RS, US, and the space. *)
Definition is_space (c : ascii) : bool :=
  between 9 13 c || between 28 31 c || (code c =? 32)%N.

Definition is_upper (c : ascii) : bool := between 65 90 c.
Definition is_lower (c : ascii) : bool := between 97 122 c.
Definition is_digit (c : ascii) : bool := between 48 57 c.

Definition lower_char (c : ascii) : ascii :=
  if is_upper c then ascii_of_N (code c + 32) else c.

Definition upper_char (c : ascii) : ascii :=
  if is_lower c then ascii_of_N (code c - 32) else c.

(** [s.lower()] *)
Fixpoint lower (s : string) : string :=
  match s with
  | EmptyString => EmptyString
  | String c r => String (lower_char c) (lower r)
  end.

(** [s.lstrip()] *)
Fixpoint lstrip (s : string) : string :=
  match s with
  | EmptyString => EmptyString
  | String c r => if is_space c then lstrip r else s
  end.

(** [s.rstrip()] *)
Fixpoint rstrip (s : string) : string :=
  match s with
  | EmptyString => EmptyString
  | String c r =>
      match rstrip r with
      | EmptyString => if is_space c then EmptyString else String c EmptyString
      | r' => String c r'
      end
  end.

(** [s.strip()] *)
Definition strip (s : string) : string := rstrip (lstrip s).

(** [s.startswith(p)] *)
Definition startswith (p s : string) : bool := String.prefix p s.

(** [sub in s] *)
Fixpoint contains (sub s : string) : bool :=
  String.prefix sub s ||
  match s with
  | EmptyString => false
  | String _ r => contains sub r
  end.

(** [x in xs] for a list or a set of strings *)
Definition mem (x : string) (xs : list string) : bool :=
  existsb (String.eqb x) xs.

(** [s[i:]] *)
Fixpoint drop (i : nat) (s : string) : string :=
  match i, s with
  | O, _ => s
  | S _, EmptyString => EmptyString
  | S j, String _ r => drop j r
  end.

(** [s[i:j]] for [i <= j] *)
Definition slice (i j : nat) (s : string) : string :=
  String.substring i (j - i) s.

(** [s.rfind(c)] for a one-character [c]: [None] stands for [-1] *)
Fixpoint rfind (c : ascii) (s : string) : option nat :=
  match s with
  | EmptyString => None
  | String d r =>
      match rfind c r with
      | Some i => Some (S i)
      | None => if Ascii.eqb d c then Some 0 else None
      end
  end.

(** [s * n] *)
Fixpoint times (s : string) (n : nat) : string :=
  match n with
  | O => EmptyString
  | S m => s ++ times s m
  end.

(** ["".join(xs)] *)
Fixpoint join (xs : list string) : string :=
  match xs with
  | [] => EmptyString
  | x :: xs' => x ++ join xs'
  end.

(** [str(n)] for a non-negative [int] *)
Definition of_nat (n : nat) : string :=
  NilZero.string_of_uint (Nat.to_uint n).

End Text.

(* ================================================================== *)
(** ** Pathlib: what the linter reads of a [pathlib.Path] *)

Module Pathlib.
Import Text.

(** A path is kept as its normalised string, [str(p)] (POSIX flavour). *)
Record Path : Type := mkPath { str : string }.

(** [p.name]: the final component. *)
Definition name (p : Path) : string :=
  match rfind "/" (str p) with
  | Some i => drop (S i) (str p)
  | None => str p
  end.

(** [p.suffix]: [name[i:]] for [i = name.rfind('.')] when
    [0 < i < len(name) - 1], the empty string otherwise. *)
Definition suffix (p : Path) : string :=
  match rfind "." (name p) with
  | Some i =>
      if (0 <? i)%nat && (i <? String.length (name p) - 1)%nat
      then drop i (name p) else EmptyString
  | None => EmptyString
  end.

End Pathlib.

(* ================================================================== *)
(** ** Re: the fragment of Python's [re] used by the pattern catalog

    The catalog is written with literals, escaped punctuation, the classes
    [\d] and [\s], bracketed sets with ranges, the assertion [\b], greedy
    quantifiers [* + ? {n} {m,n} {m,}] on one-character atoms, and
    non-capturing groups [(?:a|b)] that are not themselves quantified.
    [compile] parses exactly this fragment and refuses anything else. *)

Module Re.
Import Text.

(** An item of a one-character set. *)
Inductive item : Type :=
| Chr (c : ascii)          (* a literal character *)
| Rng (lo hi : ascii)      (* lo-hi *)
| Digit                    (* \d *)
| Space                    (* \s *)
| Word.                    (* \w *)

Inductive regex : Type :=
| Empty                                             (* matches "" *)
| Atom (set : list item) (lo : nat) (hi : option nat)
                                                    (* set{lo,hi}, greedy *)
| Boundary                                          (* \b *)
| Cat (a b : regex)                                 (* a then b *)
| Or (a b : regex).                                 (* a|b, a tried first *)

(** *** Character classes under [re.IGNORECASE] *)

Definition is_word (c : ascii) : bool :=
  is_upper c || is_lower c || is_digit c || Ascii.eqb c "_".

Definition in_range (lo hi c : ascii) : bool :=
  (code lo <=? code c)%N && (code c <=? code hi)%N.

(** A character matches an item when one of its two cases does. *)
Definition item_match (i : item) (c : ascii) : bool :=
  match i with
  | Chr d => Ascii.eqb (lower_char c) (lower_char d)
  | Rng lo hi => in_range lo hi (lower_char c) || in_range lo hi (upper_char c)
  | Digit => is_digit c
  | Space => is_space c
  | Word => is_word c
  end.

Definition set_match (set : list item) (c : ascii) : bool :=
  existsb (fun i => item_match i c) set.

(** *** The matcher

    A cursor is a position in the subject: the character before it (for
    [\b]), its index, and the text from it on. *)
Record cursor : Type := mkCursor
  { before : option ascii; index : nat; rest : string }.

Definition word_before (k : cursor) : bool :=
  match before k with Some c => is_word c | None => false end.

Definition word_after (k : cursor) : bool :=
  match rest k with String c _ => is_word c | EmptyString => false end.

Definition at_boundary (k : cursor) : bool :=
  xorb (word_before k) (word_after k).

Definition hi_zero (hi : option nat) : bool :=
  match hi with Some 0 => true | _ => false end.

(** Greedy repetition of a one-character set: take one more character
    while allowed, and fall back to stopping here when the continuation
    fails further on. *)
Fixpoint rep (set : list item) (lo : nat) (hi : option nat)
    (b : option ascii) (i : nat) (s : string)
    (k : cursor -> option nat) {struct s} : option nat :=
  let stop := if (lo =? 0)%nat then k (mkCursor b i s) else None in
  if hi_zero hi then stop
  else
    match s with
    | String c s' =>
        if set_match set c then
          match rep set (pred lo) (option_map pred hi) (Some c) (S i) s' k with
          | Some e => Some e
          | None => stop
          end
        else stop
    | EmptyString => stop
    end.

(** Backtracking match of [r] at cursor [c]; [k] is what has to match
    afterwards, and the result is the index where the whole match ends. *)
Fixpoint run (r : regex) (c : cursor) (k : cursor -> option nat)
    : option nat :=
  match r with
  | Empty => k c
  | Atom set lo hi => rep set lo hi (before c) (index c) (rest c) k
  | Boundary => if at_boundary c then k c else None
  | Cat a b => run a c (fun c' => run b c' k)
  | Or a b =>
      match run a c k with
      | Some e => Some e
      | None => run b c k
      end
  end.

(** One attempt at a start position; with [must_advance] an empty match
    at the start position is refused. *)
Definition match_at (r : regex) (c : cursor) (must_advance : bool)
    : option nat :=
  run r c (fun c' =>
    if must_advance && (index c' =? index c)%nat then None
    else Some (index c')).

(** The search loop of [finditer]: every start position in turn, left to
    right; positions inside the previous match are skipped; after an
    empty match the same position is tried once more for a non-empty
    one. The result lists the spans [(start, end)]. *)
Fixpoint scan (r : regex) (b : option ascii) (i : nat) (s : string)
    (skip_to : nat) {struct s} : list (nat * nat) :=
  let here := mkCursor b i s in
  let onward (skip : nat) : list (nat * nat) :=
    match s with
    | String c s' => scan r (Some c) (S i) s' skip
    | EmptyString => []
    end in
  if (i <? skip_to)%nat then onward skip_to
  else
    match match_at r here false with
    | Some e =>
        if (e =? i)%nat then
          (i, i) ::
          match match_at r here true with
          | Some e' => (i, e') :: onward e'
          | None => onward i
          end
        else (i, e) :: onward e
    | None => onward skip_to
    end.

Definition spans (r : regex) (s : string) : list (nat * nat) :=
  scan r None 0 s 0.

(** [m.group()] of every match of [finditer], in order. *)
Definition groups (r : regex) (s : string) : list string :=
  map (fun se => slice (fst se) (snd se) s) (spans r s).

(** *** The pattern syntax *)

Definition special (c : ascii) : bool :=
  existsb (Ascii.eqb c)
    ["."; "^"; "$"; "*"; "+"; "?"; "{"; "}"; "["; "]"; "\"; "|"; "("; ")"]%char.

Definition is_punct (c : ascii) : bool :=
  between 33 126 c && negb (is_upper c || is_lower c || is_digit c).

(** [\d], [\s], [\w], or an escaped punctuation character. *)
Definition escape (e : ascii) : option item :=
  if Ascii.eqb e "d" then Some Digit
  else if Ascii.eqb e "s" then Some Space
  else if Ascii.eqb e "w" then Some Word
  else if is_punct e then Some (Chr e)
  else None.

Fixpoint read_digits (s : string) (acc : option nat) : option nat * string :=
  match s with
  | String c r =>
      if is_digit c then
        read_digits r
          (Some (10 * match acc with Some a => a | None => 0 end
                 + N.to_nat (code c - 48)))
      else (acc, s)
  | EmptyString => (acc, s)
  end.

Definition starts_quantifier (s : string) : bool :=
  match s with
  | String c _ => existsb (Ascii.eqb c) ["*"; "+"; "?"; "{"]%char
  | EmptyString => false
  end.

(** The bounds [{lo,hi}] written after an atom, [{1,1}] when nothing is
    written; lazy and possessive suffixes are outside the fragment. *)
Definition quantifier (s : string) : option (nat * option nat * string) :=
  let plain (q : nat * option nat) (r : string) :=
    if starts_quantifier r then None else Some (q, r) in
  match s with
  | String c r =>
      if Ascii.eqb c "*" then plain (0, None) r
      else if Ascii.eqb c "+" then plain (1, None) r
      else if Ascii.eqb c "?" then plain (0, Some 1) r
      else if Ascii.eqb c "{" then
        match read_digits r None with
        | (Some n, String d r1) =>
            if Ascii.eqb d "}" then plain (n, Some n) r1
            else if Ascii.eqb d "," then
              match read_digits r1 None with
              | (None, String e r2) =>
                  if Ascii.eqb e "}" then plain (n, None) r2 else None
              | (Some m, String e r2) =>
                  if Ascii.eqb e "}" && (n <=? m)%nat
                  then plain (n, Some m) r2 else None
              | _ => None
              end
            else None
        | _ => None
        end
      else Some ((1, Some 1), s)
  | EmptyString => Some ((1, Some 1), s)
  end.

Definition quantify (set : list item) (s : string) : option (regex * string) :=
  match quantifier s with
  | Some (lo, hi, r) => Some (Atom set lo hi, r)
  | None => None
  end.

Definition starts_range (s : string) : bool :=
  match s with
  | String c (String d _) => Ascii.eqb c "-" && negb (Ascii.eqb d "]")
  | _ => false
  end.

Definition cons_item (i : item) (p : option (list item * string))
    : option (list item * string) :=
  match p with
  | Some (l, r) => Some (i :: l, r)
  | None => None
  end.

(** The inside of [[...]], up to and including the closing bracket. A
    [-] just before the bracket is a literal. *)
Fixpoint class_items (s : string) : option (list item * string) :=
  match s with
  | EmptyString => None
  | String a r1 =>
      if Ascii.eqb a "]" then Some ([], r1)
      else
        match r1 with
        | EmptyString => None
        | String b r2 =>
            if Ascii.eqb a "\" then
              match escape b with
              | Some i => if starts_range r2 then None
                          else cons_item i (class_items r2)
              | None => None
              end
            else if Ascii.eqb b "-" then
              match r2 with
              | EmptyString => None
              | String c r3 =>
                  if Ascii.eqb c "]" then Some ([Chr a; Chr "-"], r3)
                  else if Ascii.eqb c "\" then None
                  else if (code a <=? code c)%N
                       then cons_item (Rng a c) (class_items r3)
                       else None
              end
            else cons_item (Chr a) (class_items r1)
        end
  end.

(** Alternation, sequence and single piece, by recursive descent. *)
Fixpoint alt (n : nat) (s : string) {struct n} : option (regex * string) :=
  match n with
  | O => None
  | S n' =>
      match seq n' s with
      | Some (a, String c r) =>
          if Ascii.eqb c "|" then
            match alt n' r with
            | Some (b, r') => Some (Or a b, r')
            | None => None
            end
          else Some (a, String c r)
      | other => other
      end
  end
with seq (n : nat) (s : string) {struct n} : option (regex * string) :=
  match n with
  | O => None
  | S n' =>
      match s with
      | EmptyString => Some (Empty, s)
      | String c _ =>
          if Ascii.eqb c "|" || Ascii.eqb c ")" then Some (Empty, s)
          else
            match piece n' s with
            | Some (a, r) =>
                match seq n' r with
                | Some (b, r') => Some (Cat a b, r')
                | None => None
                end
            | None => None
            end
      end
  end
with piece (n : nat) (s : string) {struct n} : option (regex * string) :=
  match n with
  | O => None
  | S n' =>
      match s with
      | EmptyString => None
      | String c r =>
          if Ascii.eqb c "(" then
            match r with
            | String q (String k r1) =>
                if Ascii.eqb q "?" && Ascii.eqb k ":" then
                  match alt n' r1 with
                  | Some (a, String z r2) =>
                      if Ascii.eqb z ")" && negb (starts_quantifier r2)
                      then Some (a, r2) else None
                  | _ => None
                  end
                else None
            | _ => None
            end
          else if Ascii.eqb c "[" then
            match r with
            | String c1 _ =>
                if Ascii.eqb c1 "]" || Ascii.eqb c1 "^" then None
                else
                  match class_items r with
                  | Some (set, r1) => quantify set r1
                  | None => None
                  end
            | EmptyString => None
            end
          else if Ascii.eqb c "\" then
            match r with
            | String e r1 =>
                if Ascii.eqb e "b" then
                  if starts_quantifier r1 then None else Some (Boundary, r1)
                else
                  match escape e with
                  | Some i => quantify [i] r1
                  | None => None
                  end
            | EmptyString => None
            end
          else if special c then None
          else quantify [Chr c] r
      end
  end.

(** [re.compile(pattern, re.IGNORECASE)]; [None] is [re.error]. *)
Definition compile (pattern : string) : option regex :=
  match alt (2 * String.length pattern + 3) pattern with
  | Some (r, EmptyString) => Some r
  | _ => None
  end.

(** [[m.group() for m in re.finditer(pattern, s, re.IGNORECASE)]];
    [None] is [re.error], raised when the pattern does not compile. *)
Definition finditer (pattern s : string) : option (list string) :=
  match compile pattern with
  | Some r => Some (groups r s)
  | None => None
  end.

End Re.

(* ================================================================== *)
(** ** Py: mutable state and exceptions *)

Module Py.

(** An exception, kept as the text [str(e)] it prints as. *)
Record exn : Type := Exception { message : string }.

Inductive outcome (A : Type) : Type :=
| Return (a : A)
| Raise (e : exn).
Arguments Return {A} a.
Arguments Raise {A} e.

(** A computation over a mutable state [S]: the state it leaves, and
    either its value or the exception it raised. The state survives a
    raise, as the contents of a Python object do. *)
Definition M (S A : Type) : Type := S -> S * outcome A.

Definition ret {S A} (a : A) : M S A := fun s => (s, Return a).

Definition bind {S A B} (m : M S A) (f : A -> M S B) : M S B :=
  fun s =>
    match m s with
    | (s', Return a) => f a s'
    | (s', Raise e) => (s', Raise e)
    end.

Definition raise {S A} (e : exn) : M S A := fun s => (s, Raise e).

Definition get {S} : M S S := fun s => (s, Return s).

Definition modify {S} (f : S -> S) : M S unit := fun s => (f s, Return tt).

(** [for x in xs: body(x)] *)
Fixpoint for_ {S A} (xs : list A) (body : A -> M S unit) : M S unit :=
  match xs with
  | [] => ret tt
  | x :: xs' => bind (body x) (fun _ => for_ xs' body)
  end.

(** [list(enumerate(xs, start))] *)
Fixpoint enumerate {A} (xs : list A) (start : nat) : list (nat * A) :=
  match xs with
  | [] => []
  | x :: xs' => (start, x) :: enumerate xs' (S start)
  end.

End Py.

Declare Scope py_scope.
Delimit Scope py_scope with py.
Notation "x <- m ;; k" := (Py.bind m (fun x => k))
  (at level 61, m at next level, right associativity) : py_scope.
Notation "m ;; k" := (Py.bind m (fun _ => k))
  (at level 61, right associativity) : py_scope.

(* ================================================================== *)
(** ** The world of a run: file system and library messages *)

Module World.
Import Pathlib Py.

Record t : Type := mk
  { (** [p.exists()] *)
    exists_ : Path -> bool;
    (** [root.rglob('*')], in the order the walk yields the entries *)
    rglob : Path -> list Path;
    (** [p.is_file()] *)
    is_file : Path -> bool;
    (** [open(p, 'r', encoding='utf-8', errors='ignore')] followed by
        reading the file: its decoded text, or the exception raised *)
    read : Path -> outcome string;
    (** [open(name, 'w')]: the exception raised, if any *)
    open_w : string -> option exn;
    (** the [re.error] raised for a pattern that does not compile *)
    re_error : string -> exn }.

End World.

(* ================================================================== *)
(** ** The linter *)

Module PHILinter.
Import Text Pathlib Py.
Local Open Scope py_scope.

(** The instance: [self.violations] is the only field that changes. The
    two sets are kept as lists; the order of a list is one order in
    which the set may be iterated. *)
Record t : Type := mk
  { violations : list string;
    phi_patterns : list (string * list string);
    excluded_dirs : list string;
    excluded_files : list string }.

Definition nl : string := String (ascii_of_nat 10) EmptyString.

(** The marks printed in front of messages, byte for byte as the script
    has them. *)
Definition mark_start : string := "üîç".
Definition mark_warning : string := "‚ö†Ô∏è".
Definition mark_failure : string := "‚ùå".
Definition mark_success : string := "‚úÖ".

Definition _load_phi_patterns : list (string * list string) :=
  [ ("phone_numbers",
      [ "\b[6-9]\d{9}\b";
        "\+91[6-9]\d{9}\b";
        "\b91[6-9]\d{9}\b";
        "\(\d{3}\)\s*\d{3}-\d{4}";
        "\d{3}-\d{3}-\d{4}";
        "\d{10}" ]);
    ("email_addresses",
      [ "\b[A-Za-z0-9._%+-]+@[A-Za-z0-9.-]+\.[A-Z|a-z]{2,}\b" ]);
    ("names",
      [ "\b(?:Dr\.?|Doctor)\s+[A-Z][a-z]+\s+[A-Z][a-z]+\b";
        "\b(?:Patient|Pt\.?)\s+[A-Z][a-z]+\s+[A-Z][a-z]+\b";
        "\b[A-Z][a-z]+\s+[A-Z][a-z]+\s+[A-Z][a-z]+\b" ]);
    ("medical_ids",
      [ "\bMRN\s*:?\s*[A-Za-z0-9-]+\b";
        "\bPatient\s*ID\s*:?\s*[A-Za-z0-9-]+\b";
        "\bEncounter\s*ID\s*:?\s*[A-Za-z0-9-]+\b";
        "\bClinic\s*ID\s*:?\s*[A-Za-z0-9-]+\b" ]);
    ("addresses",
      [ "\b\d+\s+[A-Za-z\s]+(?:Street|Road|Avenue|Lane|Colony|Nagar|Pur|Pura)\b";
        "\b[A-Za-z\s]+,\s*[A-Za-z\s]+,\s*\d{6}\b" ]);
    ("medical_terms",
      [ "\b(?:Patient|Pt\.?)\s*:?\s*[A-Za-z0-9\s]+";
        "\b(?:Diagnosis|Dx\.?)\s*:?\s*[A-Za-z0-9\s]+";
        "\b(?:Symptoms|Sx\.?)\s*:?\s*[A-Za-z0-9\s]+";
        "\b(?:Medication|Meds\.?)\s*:?\s*[A-Za-z0-9\s]+" ]);
    ("dates_with_context",
      [ "\b(?:DOB|Birth)\s*:?\s*\d{1,2}[/-]\d{1,2}[/-]\d{2,4}";
        "\b(?:Admission|Discharge)\s*:?\s*\d{1,2}[/-]\d{1,2}[/-]\d{2,4}" ]);
    ("ssn_patterns",
      [ "\b\d{3}-\d{2}-\d{4}\b";
        "\b\d{9}\b" ]);
    ("credit_cards",
      [ "\b\d{4}[\s-]?\d{4}[\s-]?\d{4}[\s-]?\d{4}\b" ]);
    ("common_phi_terms",
      [ "\b(?:PHI|PII|Personal|Health|Medical)\s*[A-Za-z0-9\s]*\b";
        "\b(?:Confidential|Sensitive|Private)\s*[A-Za-z0-9\s]*\b" ]) ].

Definition __init__ : t :=
  {| violations := [];
     phi_patterns := _load_phi_patterns;
     excluded_dirs :=
       [ ".git"; ".gradle"; "build"; "node_modules"; ".idea";
         "venv"; "__pycache__"; ".pytest_cache"; "target" ];
     excluded_files := [ "phi_linter.py"; "phi_violations.txt"; ".gitignore" ] |}.

(** *** [_is_false_positive] *)

(** [any(word in text for word in words)] *)
Definition any_in (words : list string) (text : string) : bool :=
  existsb (fun word => contains word text) words.

(** The five tests, in the order of the method. *)
Definition in_comment (line : string) : bool :=
  startswith "//" (strip line) || startswith "#" (strip line).

Definition test_data (m : string) (file_path : Path) : bool :=
  contains "test" (lower (name file_path))
  && any_in ["test"; "example"; "sample"] (lower m).

Definition configuration (m : string) (file_path : Path) : bool :=
  mem (suffix file_path) [".yml"; ".yaml"; ".json"; ".xml"]
  && any_in ["config"; "example"; "template"] (lower m).

Definition regex_escape (line : string) : bool :=
  contains "\b" line || contains "\d" line || contains "\w" line.

Definition pattern_word (line : string) : bool :=
  contains "pattern" (lower line) || contains "regex" (lower line)
  || contains "format" (lower line).

Definition _is_false_positive (m line : string) (file_path : Path) : bool :=
  if in_comment line then true
  else if test_data m file_path then true
  else if configuration m file_path then true
  else if regex_escape line then true
  else if pattern_word line then true
  else false.

(** *** [scan_file] *)

(** A tuple [(line_num, category, message)]. *)
Definition violation : Type := nat * string * string.

(** [f.readlines()] in text mode: [\r\n] and a lone [\r] are read as
    [\n], and every line keeps its terminator. *)
Fixpoint readlines (text : string) : list string :=
  match text with
  | EmptyString => []
  | String c r =>
      if Ascii.eqb c "010" then nl :: readlines r
      else if Ascii.eqb c "013" then
        nl :: match r with
              | String d r' => if Ascii.eqb d "010" then readlines r'
                               else readlines r
              | EmptyString => []
              end
      else
        match readlines r with
        | [] => [String c EmptyString]
        | l :: ls => String c l :: ls
        end
  end.

(** [re.finditer(pattern, line, re.IGNORECASE)] *)
Definition re_finditer {S} (W : World.t) (pattern line : string)
    : M S (list string) :=
  match Re.finditer pattern line with
  | Some groups => ret groups
  | None => raise (World.re_error W pattern)
  end.

(** [violations.append(v)] *)
Definition append (v : violation) : M (list violation) unit :=
  modify (fun violations => violations ++ [v])%list.

(** The body of the loop over the lines (lines 87-99). *)
Definition scan_line (W : World.t) (self : t) (file_path : Path)
    (line_num : nat) (line : string) : M (list violation) unit :=
  for_ (phi_patterns self) (fun '(category, patterns) =>
    for_ patterns (fun pattern =>
      matches <- re_finditer W pattern line ;;
      for_ matches (fun m =>
        if _is_false_positive m line file_path then ret tt
        else append (line_num, category,
                     "Potential " ++ category ++ ": " ++ m)))).

(** The body of the [try] (lines 83-99), over the local list. *)
Definition scan_file_try (W : World.t) (self : t) (file_path : Path)
    : M (list violation) unit :=
  match World.read W file_path with
  | Raise e => raise e
  | Return text =>
      for_ (enumerate (readlines text) 1) (fun '(line_num, line) =>
        scan_line W self file_path line_num line)
  end.

(** [f"Error scanning {file_path}: {e}"] *)
Definition error_line (file_path : Path) (e : exn) : string :=
  "Error scanning " ++ str file_path ++ ": " ++ message e.

(** [scan_file]: the state is the standard output, one string a
    [print]. *)
Definition scan_file (W : World.t) (self : t) (file_path : Path)
    : M (list string) (list violation) :=
  fun stdout =>
    match scan_file_try W self file_path [] with
    | (violations, Return _) => (stdout, Return violations)
    | (violations, Raise e) =>
        ((stdout ++ [error_line file_path e])%list, Return violations)
    end.

(** *** [scan_directory], [generate_report], [run] *)

(** The process: the instance, the standard output, and the files
    written, as (name, contents). *)
Record process : Type := mkProcess
  { self : t;
    stdout : list string;
    written : list (string * string) }.

Definition print (s : string) : M process unit :=
  modify (fun p => mkProcess (self p) (stdout p ++ [s])%list (written p)).

(** The instance with [self.violations] replaced. *)
Definition set_violations (self : t) (violations : list string) : t :=
  mk violations (phi_patterns self) (excluded_dirs self) (excluded_files self).

(** [self.violations.append(v)] *)
Definition record (v : string) : M process unit :=
  modify (fun p =>
    mkProcess (set_violations (self p) (violations (self p) ++ [v])%list)
              (stdout p) (written p)).

(** A method whose state is the standard output, run in the process. *)
Definition on_stdout {A} (m : M (list string) A) : M process A :=
  fun p =>
    match m (stdout p) with
    | (out, r) => (mkProcess (self p) out (written p), r)
    end.

(** [f"{file_path}:{line_num} - {message}"] *)
Definition format_violation (file_path : Path) (line_num : nat)
    (message : string) : string :=
  str file_path ++ ":" ++ of_nat line_num ++ " - " ++ message.

(** [f"<mark>  {violation}"] *)
Definition warning_line (violation : string) : string :=
  mark_warning ++ "  " ++ violation.

(** The file types that are scanned. *)
Definition scanned_suffixes : list string :=
  [".kt"; ".java"; ".xml"; ".json"; ".md"; ".txt"; ".yml"; ".yaml"].

(** The body of the loop over [root_dir.rglob('*')] (lines 135-153). *)
Definition scan_entry (W : World.t) (file_path : Path) : M process unit :=
  p <- get ;;
  if World.is_file W file_path then
    if existsb (fun excluded => contains excluded (str file_path))
         (excluded_dirs (self p)) then ret tt
    else if mem (name file_path) (excluded_files (self p)) then ret tt
    else if negb (mem (suffix file_path) scanned_suffixes) then ret tt
    else
      found <- on_stdout (scan_file W (self p) file_path) ;;
      match found with
      | [] => ret tt
      | _ :: _ =>
          for_ found (fun '(line_num, category, message) =>
            let violation := format_violation file_path line_num message in
            record violation ;;
            print (warning_line violation))
      end
  else ret tt.

Definition scan_directory (W : World.t) (root_dir : Path) : M process unit :=
  print ("Scanning directory: " ++ str root_dir) ;;
  for_ (World.rglob W root_dir) (scan_entry W).

(** [f.write(s)]: the state is the text written to [f] so far. *)
Definition write (s : string) : M string unit :=
  modify (fun written_so_far => written_so_far ++ s).

(** The body of the [with] of [generate_report] (lines 158-165). *)
Definition report_body (violations : list string) : M string unit :=
  match violations with
  | _ :: _ =>
      write ("PHI Violations Detected:" ++ nl) ;;
      write (times "=" 50 ++ nl ++ nl) ;;
      for_ violations (fun violation => write (violation ++ nl)) ;;
      write (nl ++ "Total violations: " ++ of_nat (List.length violations) ++ nl)
  | [] =>
      write ("No PHI violations detected." ++ nl)
  end.

(** [generate_report]: the file is opened for writing, which may fail,
    filled by the body, and closed with what was written. *)
Definition generate_report (W : World.t) (output_file : string)
    : M process unit :=
  match World.open_w W output_file with
  | Some e => raise e
  | None =>
      modify (fun p =>
        let text := fst (report_body (violations (self p)) EmptyString) in
        mkProcess (self p) (stdout p) (written p ++ [(output_file, text)])%list)
  end.

Definition run (W : World.t) (root_dir : string) : M process nat :=
  print (mark_start ++ " Starting PHI Linter...") ;;
  print (times "=" 50) ;;
  let root_path := mkPath root_dir in
  if negb (World.exists_ W root_path) then
    print (mark_failure ++ " Directory not found: " ++ root_dir) ;;
    ret 1
  else
    scan_directory W root_path ;;
    generate_report W "phi_violations.txt" ;;
    p <- get ;;
    match violations (self p) with
    | _ :: _ =>
        print (nl ++ mark_failure ++ " Found "
               ++ of_nat (List.length (violations (self p))) ++ " PHI violations") ;;
        print "Please review and fix these violations before committing." ;;
        ret 1
    | [] =>
        print (nl ++ mark_success ++ " No PHI violations detected") ;;
        ret 0
    end.

(** The process when [main] begins: a fresh instance, nothing printed,
    nothing written. *)
Definition start : process := mkProcess __init__ [] [].

(** [main] with [--dir] given: [PHILinter()], [run], and the exit status
    of the process; an exception that nothing catches ends the process
    with status 1. *)
Definition main (W : World.t) (dir : string) : process * nat :=
  match run W dir start with
  | (p, Return exit_code) => (p, exit_code)
  | (p, Raise _) => (p, 1)
  end.

(** The exit status of the process, and [len(linter.violations)] when
    it ends. *)
Definition exit_code (W : World.t) (dir : string) : nat := snd (main W dir).

Definition violation_count (W : World.t) (dir : string) : nat :=
  List.length (violations (self (fst (main W dir)))).

End PHILinter.

(* ================================================================== *)
(** ** The command line *)

Module Cli.
Import PHILinter.



End Cli.

(* ================================================================== *)
(** * What the properties are stated with *)

(** ** Shapes of text *)

Module TextSpec.
Import Text.

(** Text made of white space only. *)
Fixpoint all_space (w : string) : Prop :=
  match w with
  | EmptyString => True
  | String c r => is_space c = true /\ all_space r
  end.

(** Text without white space (a comment marker, say). *)
Fixpoint solid (m : string) : Prop :=
  match m with
  | EmptyString => True
  | String c r => is_space c = false /\ solid r
  end.

(** [s] begins with [marker] after its leading white space. *)
Definition begins_after_blanks (marker s : string) : Prop :=
  exists w r, all_space w /\ s = w ++ marker ++ r.

(** [sub] occurs in [s]. *)
Definition occurs (sub s : string) : Prop :=
  exists a b, s = a ++ sub ++ b.

(** [sub] occurs in [s] up to the case of the letters: some substring
    of [s] lower-cases to [sub]. *)
Definition occurs_nocase (sub s : string) : Prop :=
  exists a x b, s = a ++ x ++ b /\ lower x = sub.

End TextSpec.

(** ** Matches of a rule, declaratively *)

Module ReSpec.
Import Text Re.

(** [n] characters of a set, from one cursor to another. *)
Inductive takes (set : list item) : nat -> cursor -> cursor -> Prop :=
| takes_none c : takes set 0 c c
| takes_more n b i x r c' :
    set_match set x = true ->
    takes set n (mkCursor (Some x) (S i) r) c' ->
    takes set (S n) (mkCursor b i (String x r)) c'.

Definition below (hi : option nat) (n : nat) : Prop :=
  match hi with
  | Some h => n <= h
  | None => True
  end.

(** [matches r c c']: the text between the cursors [c] and [c'] is
    matched by [r]. *)
Inductive matches : regex -> cursor -> cursor -> Prop :=
| matches_empty c : matches Empty c c
| matches_atom set lo hi n c c' :
    takes set n c c' -> lo <= n -> below hi n ->
    matches (Atom set lo hi) c c'
| matches_boundary c : at_boundary c = true -> matches Boundary c c
| matches_cat a b c c1 c2 :
    matches a c c1 -> matches b c1 c2 -> matches (Cat a b) c c2
| matches_left a b c c' : matches a c c' -> matches (Or a b) c c'
| matches_right a b c c' : matches b c c' -> matches (Or a b) c c'.

(** [c'] is [c] moved forward by some characters. *)
Inductive reach : cursor -> cursor -> Prop :=
| reach_here c : reach c c
| reach_next b i x r c' :
    reach (mkCursor (Some x) (S i) r) c' ->
    reach (mkCursor b i (String x r)) c'.


(** Spans that follow one another from [from] on, without overlap. *)
Fixpoint chained (from : nat) (l : list (nat * nat)) : Prop :=
  match l with
  | [] => True
  | (i, e) :: l' => from <= i /\ i <= e /\ chained e l'
  end.

End ReSpec.

(** ** What a line, a file and a walk yield *)

Module ScanSpec.
Import Text Pathlib Py PHILinter.

(** The tuple appended for a match [m]. *)
Definition potential (line_num : nat) (category m : string) : violation :=
  (line_num, category, "Potential " ++ category ++ ": " ++ m).

(** The filter accepts a match: it is not a false positive. *)
Definition accept (line : string) (file_path : Path) (m : string) : bool :=
  negb (_is_false_positive m line file_path).

(** The occurrences of a rule in a line: the texts of the successive
    non-overlapping matches, left to right. *)
Definition occurrences (rule line : string) : list string :=
  match Re.finditer rule line with
  | Some groups => groups
  | None => []
  end.

(** One violation for each accepted occurrence, and nothing else. *)
Definition emitted_by_rule (file_path : Path) (line_num : nat) (line : string)
    (category rule : string) : list violation :=
  map (potential line_num category)
      (filter (accept line file_path) (occurrences rule line)).

Definition emitted_by_category (file_path : Path) (line_num : nat)
    (line : string) (c : string * list string) : list violation :=
  flat_map (emitted_by_rule file_path line_num line (fst c)) (snd c).

Definition emitted (catalog : list (string * list string)) (file_path : Path)
    (line_num : nat) (line : string) : list violation :=
  flat_map (emitted_by_category file_path line_num line) catalog.

(** Every rule of the catalog compiles. *)
Definition compiles (rule : string) : bool :=
  match Re.compile rule with Some _ => true | None => false end.

Definition all_compile (catalog : list (string * list string)) : bool :=
  forallb (fun c => forallb compiles (snd c)) catalog.

(** The lines of a file with their numbers, and what the scan of the
    whole file collects. *)
Definition numbered_lines (text : string) : list (nat * string) :=
  enumerate (readlines text) 1.

Definition collected (catalog : list (string * list string)) (file_path : Path)
    (text : string) : list violation :=
  flat_map (fun nl => emitted catalog file_path (fst nl) (snd nl))
           (numbered_lines text).

End ScanSpec.

Module WalkSpec.
Import Text Pathlib Py PHILinter ScanSpec.

(** The three tests of [scan_directory], and the files that pass them. *)
Definition excluded_by_dir (dirs : list string) (file_path : Path) : bool :=
  existsb (fun excluded => contains excluded (str file_path)) dirs.

Definition scanned (W : World.t) (self : t) (file_path : Path) : bool :=
  World.is_file W file_path
  && negb (excluded_by_dir (excluded_dirs self) file_path)
  && negb (mem (name file_path) (excluded_files self))
  && mem (suffix file_path) scanned_suffixes.

(** What [scan_file] returns for a file. *)
Definition found_in (W : World.t) (self : t) (file_path : Path) : list violation :=
  match World.read W file_path with
  | Return text => collected (phi_patterns self) file_path text
  | Raise _ => []
  end.

Definition formatted (file_path : Path) (v : violation) : string :=
  format_violation file_path (fst (fst v)) (snd v).

(** What a file adds to [self.violations], and what is printed for it. *)
Definition file_violations (W : World.t) (self : t) (file_path : Path)
    : list string :=
  if scanned W self file_path
  then map (formatted file_path) (found_in W self file_path)
  else [].

Definition file_output (W : World.t) (self : t) (file_path : Path)
    : list string :=
  if scanned W self file_path then
    (match World.read W file_path with
     | Return _ => []
     | Raise e => [error_line file_path e]
     end
     ++ map (fun v => warning_line (formatted file_path v))
            (found_in W self file_path))%list
  else [].

End WalkSpec.

(** ** The conditions of the filter *)

Module FilterSpec.
Import Text TextSpec Pathlib PHILinter.

(** The five conditions, in the words of the specification. *)

(** 1. The line, after its leading white space, begins with a comment
    marker ([//] or [#]). *)
Definition comment_line (line : string) : Prop :=
  begins_after_blanks "//" line \/ begins_after_blanks "#" line.





(** 4. The line contains one of the sequences [\b], [\d], [\w]. *)
Definition escape_sequence (line : string) : Prop :=
  occurs "\b" line \/ occurs "\d" line \/ occurs "\w" line.

(** 5. The line contains "pattern", "regex" or "format", up to case. *)
Definition pattern_prose (line : string) : Prop :=
  occurs_nocase "pattern" line \/ occurs_nocase "regex" line
  \/ occurs_nocase "format" line.



End FilterSpec.

(** ** Worlds to run the linter in *)

Module Sample.
Import Text Pathlib Py PHILinter.

(** [str(FileNotFoundError)] for a path that is not there. *)
Definition not_found (file_path : Path) : exn :=
  Exception ("[Errno 2] No such file or directory: '" ++ str file_path ++ "'").

Fixpoint lookup (files : list (string * string)) (file_path : Path)
    : option string :=
  match files with
  | [] => None
  | (path, text) :: rest =>
      if String.eqb path (str file_path) then Some text
      else lookup rest file_path
  end.

(** A directory that holds the given files, as (path, text), walked in
    the order of the list; every file can be read and the report can
    be written. *)
Definition tree (files : list (string * string)) : World.t :=
  {| World.exists_ := fun _ => true;
     World.rglob := fun _ => map (fun f => mkPath (fst f)) files;
     World.is_file := fun p =>
       match lookup files p with Some _ => true | None => false end;
     World.read := fun p =>
       match lookup files p with
       | Some text => Return text
       | None => Raise (not_found p)
       end;
     World.open_w := fun _ => None;
     World.re_error := fun _ => Exception "error" |}.


(** A second instance whose sets are iterated backwards, with something
    already printed. *)
Definition start_reversed : process :=
  mkProcess
    (PHILinter.mk [] _load_phi_patterns
       (rev (excluded_dirs __init__)) (rev (excluded_files __init__)))
    ["earlier output"] [].

End Sample.

(** ** More vocabulary: digits, least lengths, line tests, reports *)

Module FurtherSpec.
Import Text TextSpec Pathlib Py PHILinter Re ReSpec ScanSpec WalkSpec.

(** Every character of a text passes a test. *)
Fixpoint every (P : ascii -> bool) (s : string) : bool :=
  match s with
  | EmptyString => true
  | String c r => P c && every P r
  end.

(** The least number of characters a match of a rule takes. *)
Fixpoint min_len (r : regex) : nat :=
  match r with
  | Empty => 0
  | Atom _ lo _ => lo
  | Boundary => 0
  | Cat a b => min_len a + min_len b
  | Or a b => Nat.min (min_len a) (min_len b)
  end.

(** Every rule of a catalog compiles to a rule that takes at least one
    character. *)
Definition takes_something (rule : string) : bool :=
  match compile rule with
  | Some r => (1 <=? min_len r)%nat
  | None => false
  end.

Definition all_take_something (catalog : list (string * list string)) : bool :=
  forallb (fun c => forallb takes_something (snd c)) catalog.

(** The three tests of the filter that look at the line only. *)
Definition line_suppressed (line : string) : bool :=
  in_comment line || regex_escape line || pattern_word line.


(** Line numbers that do not decrease, from [from] on. *)
Fixpoint ascending (from : nat) (l : list nat) : Prop :=
  match l with
  | [] => True
  | n :: l' => from <= n /\ ascending n l'
  end.

(** A tuple with its line number moved down by [k] lines. *)
Definition shift (k : nat) (v : violation) : violation :=
  (k + fst (fst v), snd (fst v), snd v).

(** The text of the report for a list of violations. *)
Definition report_text (violations : list string) : string :=
  match violations with
  | [] => "No PHI violations detected." ++ nl
  | _ :: _ =>
      "PHI Violations Detected:" ++ nl
      ++ "==================================================" ++ nl ++ nl
      ++ join (map (fun violation => violation ++ nl) violations)
      ++ nl ++ "Total violations: " ++ of_nat (List.length violations) ++ nl
  end.

(** A directory whose files are listed but cannot be read. *)
Definition locked (paths : list string) : World.t :=
  {| World.exists_ := fun _ => true;
     World.rglob := fun _ => map mkPath paths;
     World.is_file := fun _ => true;
     World.read := fun p =>
       Raise (Exception ("[Errno 13] Permission denied: '" ++ str p ++ "'"));
     World.open_w := fun _ => None;
     World.re_error := fun _ => Exception "error" |}.

(** The rules of a catalog, category after category. *)
Definition rules_of (catalog : list (string * list string)) : list string :=
  flat_map snd catalog.

(** The characters of a list of lines. *)
Definition characters (lines : list string) : nat :=
  fold_right (fun line n => String.length line + n) 0 lines.

End FurtherSpec.

(* ================================================================== *)
(** * Properties *)

(** ** Facts about the text operations *)

Module TextFacts.
Import Text TextSpec.

Lemma append_nil_r (s : string) : s ++ "" = s.
Proof. induction s as [|c s IH]; simpl; [reflexivity | now rewrite IH]. Qed.

Lemma append_assoc (a b c : string) : (a ++ b) ++ c = a ++ (b ++ c).
Proof. induction a as [|x a IH]; simpl; [reflexivity | now rewrite IH]. Qed.

Lemma prefix_cons (a b : ascii) (p s : string) :
  prefix (String a p) (String b s) = if ascii_dec a b then prefix p s else false.
Proof. reflexivity. Qed.

(** [startswith] is "is a prefix of". *)
Lemma startswith_app (p s : string) :
  startswith p s = true <-> exists r, s = p ++ r.
Proof.
  unfold startswith. revert s.
  induction p as [|a p IH]; intros s.
  - split; [intros _; now exists s | intros _; now destruct s].
  - destruct s as [|b s].
    + split; [discriminate | intros [r H]; discriminate].
    + rewrite prefix_cons. destruct (ascii_dec a b) as [Hab|Hab].
      * subst b. rewrite IH. split; intros [r H]; exists r.
        -- simpl. now rewrite H.
        -- simpl in H. now injection H.
      * split; [discriminate | intros [r H]; simpl in H; injection H as H1 _; congruence].
Qed.

Lemma startswith_false_head (a b : ascii) (p s : string) :
  a <> b -> startswith (String a p) (String b s) = false.
Proof.
  intros H. unfold startswith. rewrite prefix_cons.
  destruct (ascii_dec a b); [contradiction | reflexivity].
Qed.

Lemma contains_nil (sub : string) : contains sub "" = startswith sub "".
Proof. unfold startswith. simpl. apply orb_false_r. Qed.

Lemma contains_cons (sub : string) (c : ascii) (s : string) :
  contains sub (String c s) = startswith sub (String c s) || contains sub s.
Proof. reflexivity. Qed.

(** [sub in s] is "occurs in". *)
Lemma contains_occurs (sub s : string) :
  contains sub s = true <-> occurs sub s.
Proof.
  unfold occurs. induction s as [|c s IH].
  - rewrite contains_nil, startswith_app. split.
    + intros [r H]. exists "", r. exact H.
    + intros [a [b H]]. destruct a as [|x a]; [now exists b | discriminate].
  - rewrite contains_cons, orb_true_iff, startswith_app, IH. split.
    + intros [[r H] | [a [b H]]].
      * exists "", r. exact H.
      * exists (String c a), b. simpl. now rewrite H.
    + intros [a [b H]]. destruct a as [|x a].
      * left. now exists b.
      * right. simpl in H. injection H as _ H. now exists a, b.
Qed.


Lemma lower_app (a b : string) : lower (a ++ b) = lower a ++ lower b.
Proof. induction a as [|x a IH]; simpl; [reflexivity | now rewrite IH]. Qed.

(** A split of [lower s] comes from a split of [s]. *)
Lemma lower_split (s u v : string) :
  lower s = u ++ v -> exists u' v', s = u' ++ v' /\ lower u' = u /\ lower v' = v.
Proof.
  revert s. induction u as [|x u IH]; intros s H; simpl in H.
  - exists "", s. now repeat split.
  - destruct s as [|c s]; [discriminate |].
    simpl in H. injection H as Hx H.
    destruct (IH s H) as [u' [v' [-> [Hu Hv]]]].
    exists (String c u'), v'. simpl. now rewrite Hx, Hu.
Qed.

(** [sub in s.lower()] is "occurs in [s] up to case". *)
Lemma contains_lower (sub s : string) :
  contains sub (lower s) = true <-> occurs_nocase sub s.
Proof.
  rewrite contains_occurs. unfold occurs, occurs_nocase. split.
  - intros [a [b H]].
    destruct (lower_split _ _ _ H) as [a' [r [-> [Ha Hr]]]].
    destruct (lower_split _ _ _ Hr) as [x [b' [-> [Hx Hb]]]].
    now exists a', x, b'.
  - intros [a [x [b [-> Hx]]]].
    exists (lower a), (lower b). now rewrite !lower_app, Hx.
Qed.

(** What [lstrip] removes is white space, and what it leaves does not
    start with any. *)
Lemma lstrip_split (s : string) :
  exists w, all_space w /\ s = w ++ lstrip s.
Proof.
  induction s as [|c s [w [Hw Hs]]]; simpl.
  - now exists "".
  - destruct (is_space c) eqn:Hc.
    + exists (String c w). simpl. split; [now split | now rewrite <- Hs].
    + now exists "".
Qed.

Lemma lstrip_blanks (w s : string) : all_space w -> lstrip (w ++ s) = lstrip s.
Proof.
  induction w as [|c w IH]; simpl; [reflexivity |].
  intros [Hc Hw]. rewrite Hc. now apply IH.
Qed.

Lemma lstrip_solid (c : ascii) (s : string) :
  is_space c = false -> lstrip (String c s) = String c s.
Proof. intros H. simpl. now rewrite H. Qed.

(** [rstrip] keeps a prefix. *)
Lemma rstrip_prefix (s : string) : exists z, s = rstrip s ++ z.
Proof.
  induction s as [|c s [z IH]]; simpl.
  - now exists "".
  - destruct (rstrip s) as [|d r] eqn:Hr.
    + destruct (is_space c).
      * now exists (String c s).
      * exists s. simpl in IH. simpl. reflexivity.
    + exists z. simpl. simpl in IH. now rewrite <- IH.
Qed.

(** [rstrip] does not touch a solid, non-empty prefix. *)
Lemma rstrip_solid (m s : string) :
  m <> "" -> solid m -> exists r, rstrip (m ++ s) = m ++ r.
Proof.
  induction m as [|c m IH]; [congruence |].
  intros _ [Hc Hm]. destruct m as [|d m].
  - simpl. destruct (rstrip s) eqn:Hs; rewrite ?Hc; eauto.
  - destruct IH as [r Hr]; [discriminate | exact Hm |].
    change (rstrip ((String c (String d m)) ++ s))
      with (match rstrip (String d m ++ s) with
            | "" => if is_space c then "" else String c ""
            | r' => String c r'
            end).
    rewrite Hr. simpl. eauto.
Qed.

(** [line.strip().startswith(marker)] for a solid marker: the line
    begins with the marker after its leading white space. *)
Lemma strip_startswith (m line : string) :
  m <> "" -> solid m ->
  (startswith m (strip line) = true <-> begins_after_blanks m line).
Proof.
  intros Hne Hm. unfold strip, begins_after_blanks. split.
  - intros H. apply startswith_app in H as [r Hr].
    destruct (lstrip_split line) as [w [Hw Hl]].
    destruct (rstrip_prefix (lstrip line)) as [z Hz].
    exists w, (r ++ z). split; [exact Hw |].
    rewrite Hl at 1. f_equal. rewrite Hz at 1. rewrite Hr.
    now rewrite append_assoc.
  - intros [w [r [Hw ->]]]. rewrite lstrip_blanks by exact Hw.
    destruct m as [|c m]; [congruence |].
    destruct Hm as [Hc Hm].
    change (String c m ++ r) with (String c (m ++ r)).
    rewrite lstrip_solid by exact Hc.
    destruct (rstrip_solid (String c m) r) as [r' Hr']; [discriminate | now split |].
    change (String c (m ++ r)) with (String c m ++ r).
    rewrite Hr'. apply startswith_app. now exists r'.
Qed.

Lemma mem_In (x : string) (xs : list string) : mem x xs = true <-> In x xs.
Proof.
  unfold mem. rewrite existsb_exists. split.
  - intros [y [Hy H]]. apply String.eqb_eq in H. now subst.
  - intros H. exists x. split; [exact H | apply String.eqb_refl].
Qed.


End TextFacts.

(** ** The matcher *)

Module ReFacts.
Import Text Re ReSpec.

Lemma rep_stop (set : list item) (lo : nat) (hi : option nat) (b : option ascii)
    (i : nat) (s : string) (k : cursor -> option nat) :
  rep set lo hi b i s k
  = let stop := if (lo =? 0)%nat then k (mkCursor b i s) else None in
    if hi_zero hi then stop
    else match s with
         | String c s' =>
             if set_match set c then
               match rep set (pred lo) (option_map pred hi) (Some c) (S i) s' k with
               | Some e => Some e
               | None => stop
               end
             else stop
         | EmptyString => stop
         end.
Proof. destruct s; reflexivity. Qed.

Lemma below_succ (hi : option nat) (n : nat) :
  hi_zero hi = false -> below (option_map pred hi) n -> below hi (S n).
Proof.
  destruct hi as [[|h]|]; simpl; intros H1 H2; try discriminate; lia.
Qed.


(** What [rep] finds is a run of the set within the bounds. *)
Lemma rep_sound (set : list item) (s : string) :
  forall lo hi b i k e,
    rep set lo hi b i s k = Some e ->
    exists n c', takes set n (mkCursor b i s) c' /\ lo <= n /\ below hi n
                 /\ k c' = Some e.
Proof.
  assert (Hstop : forall lo hi b i s0 (k : cursor -> option nat) e,
    (if (lo =? 0)%nat then k (mkCursor b i s0) else None) = Some e ->
    exists n c', takes set n (mkCursor b i s0) c' /\ lo <= n /\ below hi n
                 /\ k c' = Some e).
  { intros lo hi b i s0 k e H. destruct (Nat.eqb_spec lo 0); [| discriminate].
    exists 0, (mkCursor b i s0). repeat split; try assumption.
    - constructor.
    - lia.
    - destruct hi; simpl; [lia | exact I]. }
  induction s as [|x s IH]; intros lo hi b i k e H; rewrite rep_stop in H;
    cbv zeta in H.
  - destruct (hi_zero hi); now apply Hstop.
  - destruct (hi_zero hi) eqn:Hz; [now apply Hstop |].
    destruct (set_match set x) eqn:Hx; [| now apply Hstop].
    destruct (rep set (pred lo) (option_map pred hi) (Some x) (S i) s k)
      as [e'|] eqn:Hr; [| now apply Hstop].
    injection H as <-. apply IH in Hr as [n [c' [Ht [Hlo [Hhi Hk]]]]].
    exists (S n), c'. repeat split.
    + now constructor.
    + lia.
    + now apply below_succ.
    + exact Hk.
Qed.


(** The matcher is sound: what it returns is the end of a match after
    which the continuation succeeded. *)
Lemma run_sound (r : regex) :
  forall c k e,
    run r c k = Some e -> exists c', matches r c c' /\ k c' = Some e.
Proof.
  induction r as [| set lo hi | | a IHa b IHb | a IHa b IHb];
    intros c k e H; cbn [run] in H.
  - exists c. split; [constructor | exact H].
  - apply rep_sound in H as [n [c' [Ht [Hlo [Hhi Hk]]]]].
    exists c'. split; [| exact Hk].
    apply matches_atom with (n := n); try assumption.
    now destruct c.
  - destruct (at_boundary c) eqn:Hb; [| discriminate].
    exists c. split; [now constructor | exact H].
  - apply IHa in H as [c1 [Ha H]]. apply IHb in H as [c2 [Hb H]].
    exists c2. split; [now apply matches_cat with (c1 := c1) | exact H].
  - destruct (run a c k) as [e'|] eqn:Hr.
    + injection H as <-. apply IHa in Hr as [c' [Ha Hk]].
      exists c'. split; [now apply matches_left | exact Hk].
    + apply IHb in H as [c' [Hb Hk]].
      exists c'. split; [now apply matches_right | exact Hk].
Qed.


Lemma reach_trans (c1 c2 c3 : cursor) : reach c1 c2 -> reach c2 c3 -> reach c1 c3.
Proof. induction 1; intros H'; [exact H' | constructor; auto]. Qed.

Lemma reach_index (c c' : cursor) : reach c c' -> index c <= index c'.
Proof. induction 1; cbn [index] in *; lia. Qed.

Lemma takes_reach (set : list item) (n : nat) (c c' : cursor) :
  takes set n c c' -> reach c c'.
Proof. induction 1; constructor; assumption. Qed.

Lemma matches_reach (r : regex) (c c' : cursor) : matches r c c' -> reach c c'.
Proof.
  induction 1; try constructor; eauto using takes_reach, reach_trans.
Qed.

(** One attempt: its result is the end of a match from the cursor. *)
Lemma match_at_sound (r : regex) (c : cursor) (must_advance : bool) (e : nat) :
  match_at r c must_advance = Some e ->
  exists c', matches r c c' /\ index c' = e.
Proof.
  unfold match_at. intros H. apply run_sound in H as [c' [Hm Hk]].
  exists c'. split; [exact Hm |].
  destruct (must_advance && (index c' =? index c)%nat); congruence.
Qed.

Lemma match_at_forward (r : regex) (c : cursor) (must_advance : bool) (e : nat) :
  match_at r c must_advance = Some e -> index c <= e.
Proof.
  intros H. apply match_at_sound in H as [c' [Hm <-]].
  apply reach_index. now apply matches_reach with (r := r).
Qed.


Lemma chained_weaken (from from' : nat) (l : list (nat * nat)) :
  from <= from' -> chained from' l -> chained from l.
Proof. destruct l as [|[i e] l]; simpl; [trivial | intros H [H1 [H2 H3]]; repeat split; [lia | lia | exact H3]]. Qed.

(** The spans of [finditer] follow one another without overlap. *)
Lemma scan_chained (r : regex) (s : string) :
  forall b i skip_to, chained (Nat.max i skip_to) (scan r b i s skip_to).
Proof.
  induction s as [|x s IH]; intros b i skip_to; cbn [scan]; cbv zeta.
  - destruct (Nat.ltb_spec i skip_to) as [Hlt | Hge]; [exact I |].
    destruct (match_at r _ false) as [e|] eqn:He; [| exact I].
    pose proof (match_at_forward _ _ _ _ He) as Hf. cbn [index] in Hf.
    destruct (Nat.eqb_spec e i) as [-> | Hne].
    + destruct (match_at r _ true) as [e'|] eqn:He'.
      * pose proof (match_at_forward _ _ _ _ He') as Hf'. cbn [index] in Hf'.
        simpl. lia.
      * simpl. lia.
    + simpl. lia.
  - destruct (Nat.ltb_spec i skip_to) as [Hlt | Hge].
    + apply chained_weaken with (from' := Nat.max (S i) skip_to); [lia | apply IH].
    + destruct (match_at r _ false) as [e|] eqn:He.
      * pose proof (match_at_forward _ _ _ _ He) as Hf. cbn [index] in Hf.
        destruct (Nat.eqb_spec e i) as [-> | Hne].
        -- destruct (match_at r _ true) as [e'|] eqn:He'.
           ++ pose proof (match_at_forward _ _ _ _ He') as Hf'.
              cbn [index] in Hf'. cbn [chained]. repeat split; try lia.
              apply chained_weaken with (from' := Nat.max (S i) e');
                [lia | apply IH].
           ++ cbn [chained]. repeat split; try lia.
              apply chained_weaken with (from' := Nat.max (S i) i);
                [lia | apply IH].
        -- cbn [chained]. repeat split; try lia.
           apply chained_weaken with (from' := Nat.max (S i) e);
             [lia | apply IH].
      * apply chained_weaken with (from' := Nat.max (S i) skip_to);
          [lia | apply IH].
Qed.

(** Every span is a match of the rule, at a position of the text. *)
Lemma scan_matches (r : regex) (s : string) :
  forall b i skip_to span,
    In span (scan r b i s skip_to) ->
    exists c c', reach (mkCursor b i s) c /\ index c = fst span
                 /\ matches r c c' /\ index c' = snd span.
Proof.
  assert (Hhere : forall b i s0 ma e,
    match_at r (mkCursor b i s0) ma = Some e ->
    exists c c', reach (mkCursor b i s0) c /\ index c = fst (i, e)
                 /\ matches r c c' /\ index c' = snd (i, e)).
  { intros b i s0 ma e H. apply match_at_sound in H as [c' [Hm He]].
    exists (mkCursor b i s0), c'. repeat split; try assumption. constructor. }
  assert (Hnext : forall b i x s0 span,
    (exists c c', reach (mkCursor (Some x) (S i) s0) c /\ index c = fst span
                  /\ matches r c c' /\ index c' = snd span) ->
    exists c c', reach (mkCursor b i (String x s0)) c /\ index c = fst span
                 /\ matches r c c' /\ index c' = snd span).
  { intros b i x s0 span [c [c' [Hr H]]]. exists c, c'.
    split; [now constructor | exact H]. }
  induction s as [|x s IH]; intros b i skip_to span; cbn [scan]; cbv zeta.
  - destruct (i <? skip_to)%nat; [intros [] |].
    destruct (match_at r _ false) as [e|] eqn:He; [| intros []].
    destruct (e =? i)%nat eqn:Hei.
    + apply Nat.eqb_eq in Hei. subst e.
      destruct (match_at r _ true) as [e'|] eqn:He'.
      * intros [<- | [<- | []]]; eauto.
      * intros [<- | []]; eauto.
    + intros [<- | []]; eauto.
  - destruct (i <? skip_to)%nat; [intros H; apply Hnext; eauto |].
    destruct (match_at r _ false) as [e|] eqn:He;
      [| intros H; apply Hnext; eauto].
    destruct (e =? i)%nat eqn:Hei.
    + apply Nat.eqb_eq in Hei. subst e.
      destruct (match_at r _ true) as [e'|] eqn:He'.
      * intros [<- | [<- | H]]; eauto.
      * intros [<- | H]; eauto.
    + intros [<- | H]; eauto.
Qed.


(** Two rules of the catalog, compiled. *)
Example compile_ssn :
  compile "\b\d{3}-\d{2}-\d{4}\b"
  = Some (Cat Boundary
         (Cat (Atom [Digit] 3 (Some 3))
         (Cat (Atom [Chr "-"] 1 (Some 1))
         (Cat (Atom [Digit] 2 (Some 2))
         (Cat (Atom [Chr "-"] 1 (Some 1))
         (Cat (Atom [Digit] 4 (Some 4))
         (Cat Boundary Empty))))))).
Proof. vm_compute. reflexivity. Qed.

Example compile_birth_date :
  compile "\b(?:DOB|Birth)\s*:?\s*\d{1,2}[/-]\d{1,2}[/-]\d{2,4}"
  = Some (Cat Boundary
         (Cat (Or (Cat (Atom [Chr "D"] 1 (Some 1))
                  (Cat (Atom [Chr "O"] 1 (Some 1))
                  (Cat (Atom [Chr "B"] 1 (Some 1)) Empty)))
                  (Cat (Atom [Chr "B"] 1 (Some 1))
                  (Cat (Atom [Chr "i"] 1 (Some 1))
                  (Cat (Atom [Chr "r"] 1 (Some 1))
                  (Cat (Atom [Chr "t"] 1 (Some 1))
                  (Cat (Atom [Chr "h"] 1 (Some 1)) Empty))))))
         (Cat (Atom [Space] 0 None)
         (Cat (Atom [Chr ":"] 0 (Some 1))
         (Cat (Atom [Space] 0 None)
         (Cat (Atom [Digit] 1 (Some 2))
         (Cat (Atom [Chr "/"; Chr "-"] 1 (Some 1))
         (Cat (Atom [Digit] 1 (Some 2))
         (Cat (Atom [Chr "/"; Chr "-"] 1 (Some 1))
         (Cat (Atom [Digit] 2 (Some 4)) Empty)))))))))).
Proof. vm_compute. reflexivity. Qed.

(** [finditer] on a line with three dates, in any case of the letters,
    and on a rule that matches the empty text. *)
Example finditer_dates :
  finditer "\b(?:DOB|Birth)\s*:?\s*\d{1,2}[/-]\d{1,2}[/-]\d{2,4}"
           "dob 1/2/1990, BIRTH: 12-31-99; Birth:1/1/11111"
  = Some ["dob 1/2/1990"; "BIRTH: 12-31-99"; "Birth:1/1/1111"].
Proof. vm_compute. reflexivity. Qed.

Example finditer_empty_matches :
  finditer "a*" "baac" = Some [""; "aa"; ""; ""].
Proof. vm_compute. reflexivity. Qed.

End ReFacts.

(** ** The scan of one line and of one file *)

Module ScanFacts.
Import Text Pathlib Py PHILinter ReSpec ScanSpec TextFacts ReFacts.

Lemma catalog_compiles : all_compile _load_phi_patterns = true.
Proof. vm_compute. reflexivity. Qed.

(** A loop whose every round appends a list and returns. *)
Lemma for_appends {A B} (xs : list A) (body : A -> M (list B) unit)
    (out : A -> list B) :
  (forall x acc, In x xs -> body x acc = ((acc ++ out x)%list, Return tt)) ->
  forall acc, for_ xs body acc = ((acc ++ flat_map out xs)%list, Return tt).
Proof.
  induction xs as [|x xs IH]; intros Hbody acc; simpl.
  - now rewrite app_nil_r.
  - unfold bind. rewrite Hbody by now left.
    rewrite IH by (intros; apply Hbody; now right).
    now rewrite <- app_assoc.
Qed.

Lemma loop_matches (file_path : Path) (line_num : nat) (line category : string)
    (matches : list string) (acc : list violation) :
  for_ matches (fun m =>
      if _is_false_positive m line file_path then ret tt
      else append (line_num, category, "Potential " ++ category ++ ": " ++ m)) acc
  = ((acc ++ map (potential line_num category)
                 (filter (accept line file_path) matches))%list, Return tt).
Proof.
  revert acc. induction matches as [|m ms IH]; intros acc; simpl.
  - now rewrite app_nil_r.
  - unfold bind, accept.
    destruct (_is_false_positive m line file_path); simpl.
    + apply IH.
    + unfold append, modify. rewrite IH. now rewrite <- app_assoc.
Qed.

Lemma loop_rule (W : World.t) (file_path : Path) (line_num : nat)
    (line category rule : string) (acc : list violation) :
  compiles rule = true ->
  bind (re_finditer W rule line) (fun matches =>
    for_ matches (fun m =>
      if _is_false_positive m line file_path then ret tt
      else append (line_num, category, "Potential " ++ category ++ ": " ++ m))) acc
  = ((acc ++ emitted_by_rule file_path line_num line category rule)%list, Return tt).
Proof.
  unfold compiles, emitted_by_rule, occurrences, re_finditer, Re.finditer, bind.
  destruct (Re.compile rule) as [r|]; [intros _ | discriminate].
  simpl. apply loop_matches.
Qed.

Lemma loop_line (W : World.t) (self : t) (file_path : Path) (line_num : nat)
    (line : string) (acc : list violation) :
  all_compile (phi_patterns self) = true ->
  scan_line W self file_path line_num line acc
  = ((acc ++ emitted (phi_patterns self) file_path line_num line)%list, Return tt).
Proof.
  unfold all_compile, scan_line, emitted. intros H.
  rewrite forallb_forall in H.
  apply for_appends with (out := emitted_by_category file_path line_num line).
  intros [category rules] acc' Hin. unfold emitted_by_category. simpl.
  apply for_appends. intros rule acc'' Hrule.
  apply loop_rule. specialize (H _ Hin). simpl in H.
  rewrite forallb_forall in H. now apply H.
Qed.

Lemma scan_file_read (W : World.t) (self : t) (file_path : Path) (text : string)
    (out : list string) :
  all_compile (phi_patterns self) = true ->
  World.read W file_path = Return text ->
  scan_file W self file_path out
  = (out, Return (collected (phi_patterns self) file_path text)).
Proof.
  intros Hc Hr. unfold scan_file, scan_file_try. rewrite Hr.
  rewrite for_appends
    with (out := fun nl => emitted (phi_patterns self) file_path (fst nl) (snd nl)).
  - reflexivity.
  - intros [line_num line] acc _. simpl. now apply loop_line.
Qed.

Lemma scan_file_unreadable (W : World.t) (self : t) (file_path : Path)
    (e : exn) (out : list string) :
  World.read W file_path = Raise e ->
  scan_file W self file_path out
  = ((out ++ [error_line file_path e])%list, Return []).
Proof.
  intros Hr. unfold scan_file, scan_file_try. now rewrite Hr.
Qed.

Lemma flat_map_nil {A B} (f : A -> list B) (xs : list A) :
  (forall x, In x xs -> f x = []) -> flat_map f xs = [].
Proof.
  induction xs as [|x xs IH]; intros H; simpl; [reflexivity |].
  rewrite H by now left. apply IH. intros y Hy. apply H. now right.
Qed.

Lemma filter_none {A} (f : A -> bool) (xs : list A) :
  (forall x, f x = false) -> filter f xs = [].
Proof.
  intros H. induction xs as [|x xs IH]; simpl; [reflexivity |].
  now rewrite H.
Qed.

(** When the filter rejects whatever is matched in a line, the line
    yields nothing. *)
Lemma emitted_none (catalog : list (string * list string)) (file_path : Path)
    (line_num : nat) (line : string) :
  (forall m, _is_false_positive m line file_path = true) ->
  emitted catalog file_path line_num line = [].
Proof.
  intros H. unfold emitted. apply flat_map_nil. intros c _.
  unfold emitted_by_category. apply flat_map_nil. intros rule _.
  unfold emitted_by_rule. rewrite filter_none; [reflexivity |].
  intros m. unfold accept. now rewrite H.
Qed.



End ScanFacts.

(** ** The false-positive filter *)

Module FilterFacts.
Import Text TextSpec Pathlib PHILinter TextFacts FilterSpec.

Lemma solid_slashes : "//" <> "" /\ solid "//".
Proof. split; [discriminate | now repeat split]. Qed.

Lemma solid_hash : "#" <> "" /\ solid "#".
Proof. split; [discriminate | now repeat split]. Qed.

Lemma in_comment_spec (line : string) :
  in_comment line = true <-> comment_line line.
Proof.
  unfold in_comment, comment_line. rewrite orb_true_iff.
  rewrite (strip_startswith "//" line (proj1 solid_slashes) (proj2 solid_slashes)).
  rewrite (strip_startswith "#" line (proj1 solid_hash) (proj2 solid_hash)).
  reflexivity.
Qed.




Lemma regex_escape_spec (line : string) :
  regex_escape line = true <-> escape_sequence line.
Proof.
  unfold regex_escape, escape_sequence.
  rewrite !orb_true_iff, !contains_occurs. tauto.
Qed.

Lemma pattern_word_spec (line : string) :
  pattern_word line = true <-> pattern_prose line.
Proof.
  unfold pattern_word, pattern_prose.
  rewrite !orb_true_iff, !contains_lower. tauto.
Qed.

(** The chain of tests is the disjunction of the five, taken in the
    order of the method. *)
Lemma chain (m line : string) (file_path : Path) :
  _is_false_positive m line file_path
  = in_comment line || test_data m file_path || configuration m file_path
    || regex_escape line || pattern_word line.
Proof.
  unfold _is_false_positive.
  destruct (in_comment line), (test_data m file_path),
    (configuration m file_path), (regex_escape line), (pattern_word line);
    reflexivity.
Qed.


Lemma regex_escape_rejects (m line : string) (file_path : Path) :
  regex_escape line = true -> _is_false_positive m line file_path = true.
Proof.
  intros H. rewrite chain, H.
  now rewrite !orb_true_r.
Qed.

End FilterFacts.

(** ** The walk over the tree *)

Module WalkFacts.
Import Text Pathlib Py PHILinter ScanSpec WalkSpec ScanFacts.

Lemma scan_file_found (W : World.t) (self : t) (file_path : Path)
    (out : list string) :
  all_compile (phi_patterns self) = true ->
  scan_file W self file_path out
  = ((out ++ match World.read W file_path with
             | Return _ => []
             | Raise e => [error_line file_path e]
             end)%list,
     Return (found_in W self file_path)).
Proof.
  intros Hc. unfold found_in.
  destruct (World.read W file_path) as [text|e] eqn:Hr.
  - rewrite (scan_file_read W self file_path text out Hc Hr).
    now rewrite app_nil_r.
  - now rewrite (scan_file_unreadable W self file_path e out Hr).
Qed.

(** The loop that records and prints the violations of one file. *)
Lemma loop_record (file_path : Path) (found : list violation) (p : process) :
  for_ found (fun '(line_num, category, message) =>
      let violation := format_violation file_path line_num message in
      bind (record violation) (fun _ => print (warning_line violation))) p
  = (mkProcess
       (set_violations (self p)
          (violations (self p) ++ map (formatted file_path) found))
       (stdout p ++ map (fun v => warning_line (formatted file_path v)) found)
       (written p),
     Return tt).
Proof.
  revert p. induction found as [|[[line_num category] message] found IH];
    intros [[vs pats dirs files] out wr]; simpl.
  - unfold ret, set_violations. simpl. now rewrite !app_nil_r.
  - unfold bind at 1. unfold bind at 1. unfold record, print, modify. simpl.
    rewrite IH. unfold set_violations, formatted. simpl.
    now rewrite <- !app_assoc.
Qed.

Lemma skip_entry (p : process) :
  ret tt p
  = (mkProcess (set_violations (self p) (violations (self p) ++ []))
               (stdout p ++ []) (written p),
     Return tt).
Proof.
  destruct p as [[vs pats dirs files] out wr].
  unfold ret, set_violations. simpl. now rewrite !app_nil_r.
Qed.

Lemma scan_entry_spec (W : World.t) (file_path : Path) (p : process) :
  all_compile (phi_patterns (self p)) = true ->
  scan_entry W file_path p
  = (mkProcess
       (set_violations (self p)
          (violations (self p) ++ file_violations W (self p) file_path))
       (stdout p ++ file_output W (self p) file_path)
       (written p),
     Return tt).
Proof.
  intros Hc. pose proof (skip_entry p) as Hskip.
  unfold scan_entry, file_violations, file_output, scanned, excluded_by_dir.
  unfold bind at 1. unfold get. cbv beta iota.
  destruct (World.is_file W file_path); cbn [andb negb]; [| exact Hskip].
  destruct (existsb _ (excluded_dirs (self p))); cbn [andb negb];
    [exact Hskip |].
  destruct (mem (name file_path) (excluded_files (self p))); cbn [andb negb];
    [exact Hskip |].
  destruct (mem (suffix file_path) scanned_suffixes); cbn [andb negb];
    [| exact Hskip].
  unfold bind at 1. unfold on_stdout.
  rewrite scan_file_found by exact Hc. cbv beta iota.
  pose proof (loop_record file_path (found_in W (self p) file_path)
    (mkProcess (self p)
       (stdout p ++ match World.read W file_path with
                    | Return _ => []
                    | Raise e => [error_line file_path e]
                    end) (written p))) as L.
  cbn [self stdout written] in L.
  destruct (found_in W (self p) file_path) as [|v found'] eqn:Hf.
  - clear L Hskip Hf. destruct p as [[vs pats dirs files] out wr].
    destruct (World.read W file_path);
      unfold ret, set_violations; cbn [self stdout written violations
        phi_patterns excluded_dirs excluded_files map app];
      now rewrite ?app_nil_r.
  - rewrite L. now rewrite <- app_assoc.
Qed.

(** The loop over the entries of the walk. *)
Lemma scan_entries_spec (W : World.t) (entries : list Path) (p : process) :
  all_compile (phi_patterns (self p)) = true ->
  for_ entries (scan_entry W) p
  = (mkProcess
       (set_violations (self p)
          (violations (self p) ++ flat_map (file_violations W (self p)) entries))
       (stdout p ++ flat_map (file_output W (self p)) entries)
       (written p),
     Return tt).
Proof.
  revert p. induction entries as [|e entries IH]; intros p Hc.
  - apply skip_entry.
  - cbn [for_ flat_map]. unfold bind.
    rewrite scan_entry_spec by exact Hc.
    rewrite IH by exact Hc.
    destruct p as [[vs pats dirs files] out wr].
    unfold set_violations. cbn [self stdout written violations phi_patterns
      excluded_dirs excluded_files].
    now rewrite <- !app_assoc.
Qed.

Lemma scan_directory_spec (W : World.t) (root_dir : Path) (p : process) :
  all_compile (phi_patterns (self p)) = true ->
  scan_directory W root_dir p
  = (mkProcess
       (set_violations (self p)
          (violations (self p)
           ++ flat_map (file_violations W (self p)) (World.rglob W root_dir)))
       (stdout p ++ ("Scanning directory: " ++ str root_dir)%string
                    :: flat_map (file_output W (self p)) (World.rglob W root_dir))
       (written p),
     Return tt).
Proof.
  intros Hc. unfold scan_directory, bind, print, modify.
  rewrite scan_entries_spec by exact Hc.
  cbn [self stdout written]. now rewrite <- app_assoc.
Qed.

Lemma existsb_Permutation {A} (f : A -> bool) (l1 l2 : list A) :
  Permutation l1 l2 -> existsb f l1 = existsb f l2.
Proof.
  induction 1 as [| x l1 l2 _ IH | x y l | l1 l2 l3 _ IH1 _ IH2]; simpl.
  - reflexivity.
  - now rewrite IH.
  - now destruct (f x), (f y).
  - now rewrite IH1.
Qed.

(** The files that are scanned, and what each adds, do not depend on the
    order in which the two sets are iterated, nor on what the instance has
    accumulated. *)
Lemma file_violations_stable (W : World.t) (self1 self2 : PHILinter.t)
    (file_path : Path) :
  phi_patterns self1 = phi_patterns self2 ->
  Permutation (excluded_dirs self1) (excluded_dirs self2) ->
  Permutation (excluded_files self1) (excluded_files self2) ->
  file_violations W self1 file_path = file_violations W self2 file_path.
Proof.
  intros Hp Hd Hf. unfold file_violations, scanned, excluded_by_dir, found_in, mem.
  rewrite (existsb_Permutation _ _ _ Hd), (existsb_Permutation _ _ _ Hf).
  now rewrite Hp.
Qed.


End WalkFacts.

(** ** The report and the run *)

Module RunFacts.
Import Text Pathlib Py PHILinter ScanSpec WalkSpec ScanFacts WalkFacts TextFacts.

Lemma loop_write (violations : list string) (buffer : string) :
  for_ violations (fun violation => write (violation ++ nl)) buffer
  = (buffer ++ join (map (fun violation => violation ++ nl) violations),
     Return tt).
Proof.
  revert buffer. induction violations as [|v vs IH]; intros buffer; simpl.
  - unfold ret. now rewrite append_nil_r.
  - unfold bind, write, modify. rewrite IH. now rewrite append_assoc.
Qed.

Lemma bind_return {S A B} (m : M S A) (f : A -> M S B) (s s' : S) (a : A) :
  m s = (s', Return a) -> bind m f s = f a s'.
Proof. intros H. unfold bind. now rewrite H. Qed.

Lemma bind_raise {S A B} (m : M S A) (f : A -> M S B) (s s' : S) (e : exn) :
  m s = (s', Raise e) -> bind m f s = (s', Raise e).
Proof. intros H. unfold bind. now rewrite H. Qed.

Lemma print_spec (line : string) (p : process) :
  print line p = (mkProcess (self p) (stdout p ++ [line]) (written p), Return tt).
Proof. reflexivity. Qed.

Lemma get_spec {S} (s : S) : get s = (s, Return s).
Proof. reflexivity. Qed.

Lemma generate_report_spec (W : World.t) (output_file : string) (p : process) :
  World.open_w W output_file = None ->
  generate_report W output_file p
  = (mkProcess (self p) (stdout p)
       (written p ++ [(output_file, fst (report_body (violations (self p)) ""))]),
     Return tt).
Proof. intros H. unfold generate_report. now rewrite H. Qed.


End RunFacts.

(** ** Occurrences, lines, files and runs, in more detail *)

Module FurtherFacts.
Import Text TextSpec Pathlib Py PHILinter Re ReSpec ScanSpec WalkSpec FilterSpec.
Import Cli FurtherSpec.
Import TextFacts ReFacts ScanFacts FilterFacts WalkFacts RunFacts.

Lemma length_append (a b : string) :
  String.length (a ++ b) = String.length a + String.length b.
Proof. induction a as [|x a IH]; simpl; [reflexivity | now rewrite IH]. Qed.

(** [s[i:j]] cuts the middle out of [pre ++ mid ++ post]. *)
Lemma slice_middle (pre mid post : string) :
  slice (String.length pre) (String.length pre + String.length mid)
        (pre ++ mid ++ post) = mid.
Proof.
  unfold slice. replace (String.length pre + String.length mid - String.length pre)
    with (String.length mid) by lia.
  induction pre as [|x pre IH]; simpl.
  - induction mid as [|y mid IHm]; simpl.
    + now destruct post.
    + now rewrite IHm.
  - exact IH.
Qed.

(** Moving a cursor forward reads a piece of the text. *)
Lemma reach_text (c c' : cursor) :
  reach c c' ->
  exists u, rest c = u ++ rest c' /\ index c' = index c + String.length u.
Proof.
  induction 1 as [c | b i x r c' _ [u [Hu Hi]]].
  - exists "". simpl. split; [reflexivity | lia].
  - exists (String x u). cbn [rest index] in *. simpl. split.
    + now rewrite Hu.
    + lia.
Qed.

Lemma takes_text (set : list item) (n : nat) (c c' : cursor) :
  takes set n c c' ->
  exists u, rest c = u ++ rest c' /\ index c' = index c + n
            /\ String.length u = n /\ every (set_match set) u = true.
Proof.
  induction 1 as [c | n b i x r c' Hx _ [u [Hu [Hi [Hl He]]]]].
  - exists "". simpl. repeat split; lia.
  - exists (String x u). cbn [rest index] in *. simpl. repeat split.
    + now rewrite Hu.
    + lia.
    + now rewrite Hl.
    + now rewrite Hx, He.
Qed.



(** A match takes at least [min_len] characters. *)
Lemma matches_min_len (r : regex) (c c' : cursor) :
  matches r c c' -> index c + min_len r <= index c'.
Proof.
  induction 1 as [c | set lo hi n c c' Ht Hlo Hhi | c Hb
                  | a b c c1 c2 _ IHa _ IHb | a b c c' _ IH | a b c c' _ IH];
    cbn [min_len]; try lia.
  apply takes_text in Ht as [u [_ [Hi _]]]. lia.
Qed.

(** The text of a span: the piece of the line a match read. *)
Lemma span_text (r : regex) (line : string) (span : nat * nat) :
  In span (spans r line) ->
  exists pre mid post c c',
    line = pre ++ mid ++ post
    /\ slice (fst span) (snd span) line = mid
    /\ rest c = mid ++ post /\ rest c' = post
    /\ matches r c c'
    /\ min_len r <= String.length mid.
Proof.
  intros H. apply scan_matches in H as [c [c' [Hr [Hi [Hm He]]]]].
  pose proof (matches_min_len _ _ _ Hm) as Hmin.
  apply reach_text in Hr as [pre [Hpre Hic]]. cbn [rest index] in Hpre, Hic.
  destruct (reach_text _ _ (matches_reach _ _ _ Hm)) as [mid [Hmid Hic']].
  exists pre, mid, (rest c'), c, c'. repeat split; try assumption.
  - now rewrite Hpre, Hmid.
  - rewrite <- Hi, <- He, Hic', Hic, Hpre, Hmid. cbn [Nat.add]. apply slice_middle.
  - lia.
Qed.

(** Which tuples a line yields. *)
Lemma emitted_In (catalog : list (string * list string)) (file_path : Path)
    (line_num : nat) (line : string) (v : violation) :
  In v (emitted catalog file_path line_num line)
  <-> exists category rules rule m,
        In (category, rules) catalog /\ In rule rules
        /\ In m (occurrences rule line)
        /\ _is_false_positive m line file_path = false
        /\ v = potential line_num category m.
Proof.
  unfold emitted. rewrite in_flat_map. split.
  - intros [[category rules] [Hc Hv]].
    unfold emitted_by_category in Hv. cbn [fst snd] in Hv.
    apply in_flat_map in Hv as [rule [Hr Hv]].
    unfold emitted_by_rule in Hv. apply in_map_iff in Hv as [m [Hm Hin]].
    apply filter_In in Hin as [Hin Ha].
    exists category, rules, rule, m. repeat split; try assumption.
    + unfold accept in Ha. now apply negb_true_iff in Ha.
    + now rewrite <- Hm.
  - intros [category [rules [rule [m [Hc [Hr [Hm [Ha ->]]]]]]]].
    exists (category, rules). split; [exact Hc |].
    unfold emitted_by_category. cbn [fst snd]. apply in_flat_map.
    exists rule. split; [exact Hr |].
    unfold emitted_by_rule. apply in_map_iff. exists m.
    split; [reflexivity |]. apply filter_In. split; [exact Hm |].
    unfold accept. now rewrite Ha.
Qed.

Lemma catalog_takes_something : all_take_something _load_phi_patterns = true.
Proof. vm_compute. reflexivity. Qed.

(** An occurrence of a rule of the catalog is a piece of the line, and
    not an empty one. *)
Lemma occurrence_on_the_line (category : string) (rules : list string)
    (rule line m : string) :
  In (category, rules) _load_phi_patterns -> In rule rules ->
  In m (occurrences rule line) ->
  m <> "" /\ occurs m line.
Proof.
  intros Hc Hr Hm. pose proof catalog_takes_something as H.
  unfold all_take_something in H. rewrite forallb_forall in H.
  specialize (H _ Hc). cbn [snd] in H. rewrite forallb_forall in H.
  specialize (H _ Hr). unfold takes_something in H.
  unfold occurrences, finditer in Hm.
  destruct (compile rule) as [r|]; [| discriminate].
  apply Nat.leb_le in H. unfold groups in Hm.
  apply in_map_iff in Hm as [span [Hs Hin]].
  apply span_text in Hin as [pre [mid [post [c [c' [Hl [Hsl [_ [_ [_ Hlen]]]]]]]]]].
  rewrite Hsl in Hs. subst m. split.
  - intros ->. simpl in Hlen. lia.
  - now exists pre, post.
Qed.

Lemma enumerate_In {A} (xs : list A) :
  forall k n x,
    In (n, x) (enumerate xs k) ->
    k <= n < k + List.length xs /\ nth_error xs (n - k) = Some x.
Proof.
  induction xs as [|y xs IH]; intros k n x H; simpl in H; [contradiction |].
  destruct H as [H | H].
  - injection H as <- <-. split; [simpl; lia |].
    now replace (k - k) with 0 by lia.
  - apply IH in H as [Hb Hn]. split; [simpl; lia |].
    replace (n - k) with (S (n - S k)) by lia. exact Hn.
Qed.

Lemma ascending_weaken (from from' : nat) (l : list nat) :
  from <= from' -> ascending from' l -> ascending from l.
Proof. destruct l; simpl; [trivial | intros H [H1 H2]; split; [lia | exact H2]]. Qed.

Lemma ascending_chunk (n from : nat) (l1 l2 : list nat) :
  (forall x, In x l1 -> x = n) -> from <= n -> ascending n l2 ->
  ascending from (l1 ++ l2).
Proof.
  revert from. induction l1 as [|x l1 IH]; intros from H Hf H2; simpl.
  - now apply ascending_weaken with (from' := n).
  - rewrite (H x) by now left. split; [exact Hf |].
    apply IH; [intros y Hy; apply H; now right | lia | exact H2].
Qed.

Lemma emitted_line_num (catalog : list (string * list string)) (file_path : Path)
    (line_num : nat) (line : string) (v : violation) :
  In v (emitted catalog file_path line_num line) -> fst (fst v) = line_num.
Proof.
  intros H. apply emitted_In in H as [c [rs [r [m [_ [_ [_ [_ ->]]]]]]]].
  reflexivity.
Qed.

Lemma collected_ascending (catalog : list (string * list string))
    (file_path : Path) (lines : list string) :
  forall k,
    ascending k
      (map (fun v : violation => fst (fst v))
         (flat_map (fun nl => emitted catalog file_path (fst nl) (snd nl))
                   (enumerate lines k))).
Proof.
  induction lines as [|line lines IH]; intros k; simpl; [exact I |].
  rewrite map_app. apply ascending_chunk with (n := k).
  - intros x Hx. apply in_map_iff in Hx as [v [<- Hv]].
    now apply emitted_line_num in Hv.
  - lia.
  - apply ascending_weaken with (from' := S k); [lia | apply IH].
Qed.





Lemma line_suppressed_spec (line : string) :
  line_suppressed line = true
  <-> comment_line line \/ escape_sequence line \/ pattern_prose line.
Proof.
  unfold line_suppressed.
  rewrite !orb_true_iff, in_comment_spec, regex_escape_spec, pattern_word_spec.
  tauto.
Qed.

Lemma line_suppressed_rejects (m line : string) (file_path : Path) :
  line_suppressed line = true -> _is_false_positive m line file_path = true.
Proof.
  unfold line_suppressed. intros H. rewrite chain.
  destruct (in_comment line), (regex_escape line), (pattern_word line),
    (test_data m file_path), (configuration m file_path);
    try reflexivity; discriminate.
Qed.





(** The tuples of a line do not depend on the number of the line, but
    for carrying it. *)
Lemma emitted_shift (catalog : list (string * list string)) (file_path : Path)
    (k line_num : nat) (line : string) :
  emitted catalog file_path (k + line_num) line
  = map (shift k) (emitted catalog file_path line_num line).
Proof.
  unfold emitted. induction catalog as [|c catalog IH]; simpl; [reflexivity |].
  rewrite map_app, IH. f_equal. unfold emitted_by_category.
  induction (snd c) as [|rule rules IHr]; simpl; [reflexivity |].
  rewrite map_app, IHr. f_equal. unfold emitted_by_rule.
  rewrite map_map. reflexivity.
Qed.




Lemma filter_by_name (m line : string) (p1 p2 : Path) :
  name p1 = name p2 ->
  _is_false_positive m line p1 = _is_false_positive m line p2.
Proof.
  intros H. unfold _is_false_positive, test_data, configuration, suffix.
  now rewrite H.
Qed.

Lemma emitted_by_name (catalog : list (string * list string)) (p1 p2 : Path)
    (line_num : nat) (line : string) :
  name p1 = name p2 ->
  emitted catalog p1 line_num line = emitted catalog p2 line_num line.
Proof.
  intros H. unfold emitted. apply flat_map_ext. intros c.
  unfold emitted_by_category. apply flat_map_ext. intros rule.
  unfold emitted_by_rule. f_equal. apply filter_ext. intros m.
  unfold accept. now rewrite (filter_by_name m line p1 p2 H).
Qed.

Lemma readlines_nonempty (t : string) : readlines (t ++ nl) <> [].
Proof.
  induction t as [|c t IH]; simpl; [discriminate |].
  destruct (Ascii.eqb c "010"); [discriminate |].
  destruct (Ascii.eqb c "013"); [discriminate |].
  destruct (readlines (t ++ nl)); [contradiction | discriminate].
Qed.

Lemma readlines_cons (c : ascii) (r : string) :
  readlines (String c r)
  = if Ascii.eqb c "010" then nl :: readlines r
    else if Ascii.eqb c "013" then
      nl :: match r with
            | String d r' => if Ascii.eqb d "010" then readlines r'
                             else readlines r
            | EmptyString => []
            end
    else match readlines r with
         | [] => [String c EmptyString]
         | l :: ls => String c l :: ls
         end.
Proof. reflexivity. Qed.

(** What is read after a complete line does not change the lines before. *)
Lemma readlines_app_bounded (tail : string) (n : nat) :
  forall head, String.length head <= n ->
    readlines (head ++ nl ++ tail)
    = (readlines (head ++ nl) ++ readlines tail)%list.
Proof.
  induction n as [|n IH]; intros head Hn.
  - destruct head; [reflexivity | simpl in Hn; lia].
  - destruct head as [|c head]; [reflexivity |].
    simpl in Hn.
    change (String c head ++ nl ++ tail) with (String c (head ++ nl ++ tail)).
    change (String c head ++ nl) with (String c (head ++ nl)).
    rewrite !readlines_cons.
    destruct (Ascii.eqb c "010"); [rewrite IH by lia; reflexivity |].
    destruct (Ascii.eqb c "013").
    + destruct head as [|d head']; [reflexivity |].
      simpl in Hn.
      change (String d head' ++ nl ++ tail) with (String d (head' ++ nl ++ tail)).
      change (String d head' ++ nl) with (String d (head' ++ nl)).
      cbv iota.
      destruct (Ascii.eqb d "010").
      * rewrite IH by lia. reflexivity.
      * change (String d (head' ++ nl ++ tail)) with (String d head' ++ nl ++ tail).
        change (String d (head' ++ nl)) with (String d head' ++ nl).
        rewrite IH by (simpl; lia). reflexivity.
    + rewrite IH by lia. pose proof (readlines_nonempty head) as Hne.
      destruct (readlines (head ++ nl)); [contradiction | reflexivity].
Qed.

Lemma readlines_app (head tail : string) :
  readlines (head ++ nl ++ tail)
  = (readlines (head ++ nl) ++ readlines tail)%list.
Proof. now apply (readlines_app_bounded tail (String.length head)). Qed.

Lemma enumerate_app {A} (xs ys : list A) :
  forall k,
    enumerate (xs ++ ys) k
    = (enumerate xs k ++ enumerate ys (List.length xs + k))%list.
Proof.
  induction xs as [|x xs IH]; intros k; simpl; [reflexivity |].
  rewrite IH. do 3 f_equal. lia.
Qed.

Lemma collected_shift (catalog : list (string * list string)) (file_path : Path)
    (k : nat) (lines : list string) :
  forall j,
    flat_map (fun nl => emitted catalog file_path (fst nl) (snd nl))
             (enumerate lines (k + j))
    = map (shift k)
        (flat_map (fun nl => emitted catalog file_path (fst nl) (snd nl))
                  (enumerate lines j)).
Proof.
  induction lines as [|line lines IH]; intros j; simpl; [reflexivity |].
  rewrite map_app, emitted_shift. f_equal.
  replace (S (k + j)) with (k + S j) by lia. apply IH.
Qed.

Lemma for_app {S A} (xs ys : list A) (body : A -> M S unit) (s : S) :
  for_ (xs ++ ys) body s = bind (for_ xs body) (fun _ => for_ ys body) s.
Proof.
  revert s. induction xs as [|x xs IH]; intros s; simpl.
  - reflexivity.
  - unfold bind. destruct (body x s) as [s' [[]|e]].
    + rewrite IH. reflexivity.
    + reflexivity.
Qed.

Lemma file_violations_set (W : World.t) (self : PHILinter.t) (vs : list string)
    (file_path : Path) :
  file_violations W (set_violations self vs) file_path
  = file_violations W self file_path.
Proof. reflexivity. Qed.

Lemma report_body_text (violations : list string) :
  fst (report_body violations "") = report_text violations.
Proof.
  destruct violations as [|v vs]; [reflexivity |].
  unfold report_body, bind, write, modify. rewrite loop_write.
  cbn [fst]. change (times "=" 50) with "==================================================".
  cbn [append]. unfold report_text. now rewrite !append_assoc.
Qed.

(** An entry that is not scanned leaves the process as it is. *)
Lemma scan_entry_skips (W : World.t) (file_path : Path) (p : process) :
  scanned W (self p) file_path = false ->
  scan_entry W file_path p = (p, Return tt).
Proof.
  unfold scanned, excluded_by_dir, scan_entry. intros H.
  unfold bind at 1. unfold get. cbv beta iota.
  destruct (World.is_file W file_path); [| reflexivity].
  destruct (existsb _ (excluded_dirs (self p))); [reflexivity |].
  destruct (mem (name file_path) (excluded_files (self p))); [reflexivity |].
  destruct (mem (suffix file_path) scanned_suffixes); [discriminate | reflexivity].
Qed.



Lemma main_reports (W : World.t) (root_dir : string) :
  World.exists_ W (mkPath root_dir) = true ->
  World.open_w W "phi_violations.txt" = None ->
  exists out,
    main W root_dir
    = (mkProcess
         (set_violations __init__
            (flat_map (file_violations W __init__) (World.rglob W (mkPath root_dir))))
         out
         [("phi_violations.txt",
           report_text (flat_map (file_violations W __init__)
                                 (World.rglob W (mkPath root_dir))))],
       match flat_map (file_violations W __init__) (World.rglob W (mkPath root_dir))
       with [] => 0 | _ :: _ => 1 end).
Proof.
  intros He Ho. unfold main, PHILinter.run.
  rewrite (bind_return _ _ _ _ _ (print_spec _ _)).
  rewrite (bind_return _ _ _ _ _ (print_spec _ _)).
  rewrite He. cbn [negb].
  pose proof (fun out wr =>
    scan_directory_spec W (mkPath root_dir) (mkProcess __init__ out wr)
      catalog_compiles) as Hs.
  unfold start. cbn [self stdout written] in *.
  rewrite (bind_return _ _ _ _ _ (Hs _ _)).
  rewrite (bind_return _ _ _ _ _ (generate_report_spec W _ _ Ho)).
  rewrite (bind_return _ _ _ _ _ (get_spec _)).
  cbn [self stdout written violations set_violations __init__ app].
  rewrite report_body_text.
  destruct (flat_map (file_violations W __init__) (World.rglob W (mkPath root_dir)))
    as [|v vs].
  - rewrite (bind_return _ _ _ _ _ (print_spec _ _)). unfold ret.
    cbn [self stdout written]. eauto.
  - rewrite (bind_return _ _ _ _ _ (print_spec _ _)).
    rewrite (bind_return _ _ _ _ _ (print_spec _ _)). unfold ret.
    cbn [self stdout written]. eauto.
Qed.

Lemma scan_file_try_read (W : World.t) (self : PHILinter.t) (file_path : Path)
    (text : string) :
  all_compile (phi_patterns self) = true ->
  World.read W file_path = Return text ->
  scan_file_try W self file_path []
  = (collected (phi_patterns self) file_path text, Return tt).
Proof.
  intros Hc Hr. unfold scan_file_try. rewrite Hr.
  rewrite for_appends
    with (out := fun nl => emitted (phi_patterns self) file_path (fst nl) (snd nl)).
  - reflexivity.
  - intros [line_num line] acc _. simpl. now apply loop_line.
Qed.


Lemma file_violations_agree (W1 W2 : World.t) (self : PHILinter.t) (file_path : Path) :
  World.is_file W1 file_path = World.is_file W2 file_path ->
  World.read W1 file_path = World.read W2 file_path ->
  file_violations W1 self file_path = file_violations W2 self file_path.
Proof.
  intros Hi Hr. unfold file_violations, scanned, found_in. now rewrite Hi, Hr.
Qed.

Lemma flat_map_agree {A B} (f g : A -> list B) (xs : list A) :
  (forall x, In x xs -> f x = g x) -> flat_map f xs = flat_map g xs.
Proof.
  induction xs as [|x xs IH]; intros H; simpl; [reflexivity |].
  rewrite (H x) by now left. rewrite IH; [reflexivity |].
  intros y Hy. apply H. now right.
Qed.

(** Spans that follow one another, each of them not empty and ending
    within [bound], are at most [bound - from]. *)
Lemma chained_count (bound : nat) (l : list (nat * nat)) :
  forall from,
    chained from l ->
    (forall span, In span l -> fst span < snd span <= bound) ->
    from + List.length l <= Nat.max from bound.
Proof.
  induction l as [|[i e] l IH]; intros from Hc Hb; simpl.
  - lia.
  - destruct Hc as [H1 [H2 H3]].
    pose proof (Hb (i, e) (or_introl eq_refl)) as Hs. cbn [fst snd] in Hs.
    specialize (IH e H3 (fun span Hin => Hb span (or_intror Hin))). lia.
Qed.

(** A span of a rule ends within the line, and after its start when the
    rule takes at least one character. *)
Lemma span_bounds (r : regex) (line : string) (span : nat * nat) :
  In span (spans r line) ->
  fst span + min_len r <= snd span <= String.length line.
Proof.
  intros H. apply scan_matches in H as [c [c' [Hr [Hi [Hm He]]]]].
  pose proof (matches_min_len _ _ _ Hm) as Hmin.
  apply reach_text in Hr as [pre [Hpre Hic]]. cbn [rest index] in Hpre, Hic.
  destruct (reach_text _ _ (matches_reach _ _ _ Hm)) as [mid [Hmid Hic']].
  rewrite <- Hi, <- He. split; [exact Hmin |].
  rewrite Hpre, Hmid, !length_append. lia.
Qed.

(** A rule that takes at least one character has at most as many
    occurrences in a line as the line has characters. *)
Lemma occurrences_count (rule line : string) :
  takes_something rule = true ->
  List.length (occurrences rule line) <= String.length line.
Proof.
  unfold takes_something, occurrences, finditer. intros H.
  destruct (compile rule) as [r|]; [| discriminate].
  apply Nat.leb_le in H. unfold groups. rewrite length_map.
  pose proof (chained_count (String.length line) (spans r line) 0
                (scan_chained r line None 0 0)) as Hc.
  simpl in Hc. apply Hc. intros span Hin.
  pose proof (span_bounds r line span Hin). lia.
Qed.

Lemma filter_length {A} (f : A -> bool) (xs : list A) :
  List.length (filter f xs) <= List.length xs.
Proof.
  induction xs as [|x xs IH]; simpl; [lia |].
  destruct (f x); simpl; lia.
Qed.

Lemma flat_map_count {A B} (f : A -> list B) (n : nat) (xs : list A) :
  (forall x, In x xs -> List.length (f x) <= n) ->
  List.length (flat_map f xs) <= List.length xs * n.
Proof.
  induction xs as [|x xs IH]; intros H; simpl; [lia |].
  rewrite length_app. specialize (H x (or_introl eq_refl)) as Hx.
  specialize (IH (fun y Hy => H y (or_intror Hy))). lia.
Qed.

Lemma emitted_count (catalog : list (string * list string)) (file_path : Path)
    (line_num : nat) (line : string) :
  all_take_something catalog = true ->
  List.length (emitted catalog file_path line_num line)
  <= List.length (rules_of catalog) * String.length line.
Proof.
  unfold all_take_something, emitted, rules_of.
  induction catalog as [|c catalog IH]; intros H; simpl; [lia |].
  simpl in H. apply andb_true_iff in H as [Hc H].
  rewrite !length_app. specialize (IH H).
  assert (List.length (emitted_by_category file_path line_num line c)
          <= List.length (snd c) * String.length line).
  { unfold emitted_by_category. apply flat_map_count. intros rule Hr.
    unfold emitted_by_rule. rewrite length_map.
    rewrite forallb_forall in Hc.
    pose proof (occurrences_count rule line (Hc rule Hr)).
    pose proof (filter_length (accept line file_path) (occurrences rule line)).
    lia. }
  lia.
Qed.

(** The lines read from a text have no more characters than the text:
    [\r\n] is read as one character, everything else as itself. *)
Lemma readlines_characters_bounded (n : nat) :
  forall text, String.length text <= n ->
    characters (readlines text) <= String.length text.
Proof.
  induction n as [|n IH]; intros text Hn.
  - destruct text; [simpl; lia | simpl in Hn; lia].
  - destruct text as [|c r]; [simpl; lia |].
    rewrite readlines_cons. cbn [String.length] in *.
    destruct (Ascii.eqb c "010").
    + cbn [characters fold_right]. change (String.length nl) with 1.
      specialize (IH r ltac:(lia)). unfold characters in IH. lia.
    + destruct (Ascii.eqb c "013").
      * cbn [characters fold_right]. change (String.length nl) with 1.
        destruct r as [|d r']; [simpl; lia |].
        cbn [String.length] in *.
        destruct (Ascii.eqb d "010").
        -- specialize (IH r' ltac:(lia)). unfold characters in IH. lia.
        -- specialize (IH (String d r') ltac:(cbn [String.length]; lia)).
           unfold characters in IH. cbn [String.length] in IH. lia.
      * specialize (IH r ltac:(lia)).
        destruct (readlines r) as [|l ls]; cbn [characters fold_right String.length] in *; lia.
Qed.

Lemma readlines_characters (text : string) :
  characters (readlines text) <= String.length text.
Proof. now apply (readlines_characters_bounded (String.length text)). Qed.

Lemma collected_count (catalog : list (string * list string)) (file_path : Path)
    (lines : list string) :
  all_take_something catalog = true ->
  forall start,
    List.length (flat_map (fun nl => emitted catalog file_path (fst nl) (snd nl))
                          (enumerate lines start))
    <= List.length (rules_of catalog) * characters lines.
Proof.
  intros H. induction lines as [|line lines IH]; intros start; simpl; [lia |].
  rewrite length_app.
  pose proof (emitted_count catalog file_path start line H).
  specialize (IH (S start)). lia.
Qed.

End FurtherFacts.

(* ================================================================== *)
(** * The claims *)

Import Text Pathlib Py PHILinter.
Import TextSpec ReSpec ScanSpec WalkSpec FilterSpec Sample.
Import TextFacts ReFacts ScanFacts FilterFacts WalkFacts RunFacts.

(** ** C1: one violation for each accepted occurrence *)



(** ** C2: the filter is the disjunction of five conditions *)



(** ** C3: the exit code *)




(** The guard of [run]: on a directory that does not exist the exit code
    is 1 and nothing is counted, in every world. *)
Example missing_directory_exits_with_1 :
  forall W root_dir,
    World.exists_ W (mkPath root_dir) = false ->
    exit_code W root_dir = 1 /\ violation_count W root_dir = 0.
Proof.
  intros W root_dir He. unfold exit_code, violation_count, main, run.
  rewrite (bind_return _ _ _ _ _ (print_spec _ _)).
  rewrite (bind_return _ _ _ _ _ (print_spec _ _)).
  rewrite He. cbn [negb].
  rewrite (bind_return _ _ _ _ _ (print_spec _ _)).
  unfold ret. now split.
Qed.

(** A report that cannot be written ends the run by an exception, whatever
    was found. *)
Example unwritable_report_ends_the_run :
  forall W root_dir e,
    World.exists_ W (mkPath root_dir) = true ->
    World.open_w W "phi_violations.txt" = Some e ->
    exit_code W root_dir = 1.
Proof.
  intros W root_dir e He Ho. unfold exit_code, main, run.
  rewrite (bind_return _ _ _ _ _ (print_spec _ _)).
  rewrite (bind_return _ _ _ _ _ (print_spec _ _)).
  rewrite He. cbn [negb].
  pose proof (fun out wr =>
    scan_directory_spec W (mkPath root_dir) (mkProcess __init__ out wr)
      catalog_compiles) as Hs.
  unfold start. cbn [self stdout written] in *.
  rewrite (bind_return _ _ _ _ _ (Hs _ _)).
  assert (forall p, generate_report W "phi_violations.txt" p = (p, Raise e)) as Hg
    by (intros p; unfold generate_report; now rewrite Ho).
  now rewrite (bind_raise _ _ _ _ _ (Hg _)).
Qed.

(** ** C4: a line that contains [\d] yields nothing *)

(** C4. For every file, line number and line: if the two characters [\d]
    occur in the line, the scan of the line leaves what was collected as
    it was, whatever else the line contains. *)
Theorem C4_backslash_d_suppresses_the_line
    (W : World.t) (self : PHILinter.t) (file_path : Path) (line_num : nat)
    (line : string) (acc : list violation) :
  phi_patterns self = _load_phi_patterns ->
  occurs "\d" line ->
  scan_line W self file_path line_num line acc = (acc, Return tt).
Proof.
  intros Hp Hd.
  rewrite loop_line by (rewrite Hp; exact catalog_compiles).
  rewrite emitted_none; [now rewrite app_nil_r |].
  intros m. apply regex_escape_rejects. apply regex_escape_spec.
  right. left. exact Hd.
Qed.

(** The third scenario of the specification: a rule written out in a
    source file. *)
Lemma C4_witness :
  scan_line (tree []) __init__ (mkPath "phi_linter_rules.py") 7
    "r'\d{3}-\d{2}-\d{4}'" []
  = ([], Return tt).
Proof.
  apply C4_backslash_d_suppresses_the_line.
  - reflexivity.
  - exists "r'", "{3}-\d{2}-\d{4}'". reflexivity.
Defined.

(** ** C5: the first scenario *)

(** C5, as amended. Scanning the single line [Patient ID: 48213] of a file
    named [Controller.kt] yields exactly two violations, in this order:
    one of category [medical_ids] with the message
    [Potential medical_ids: Patient ID: 48213], and one of category
    [medical_terms] with the message [Potential medical_terms: Patient ID],
    from the rule for patient references, which matches [Patient ID]. *)
Theorem C5_patient_id_line_yields_two_violations
    (W : World.t) (self : PHILinter.t) (text : string) (out : list string) :
  phi_patterns self = _load_phi_patterns ->
  World.read W (mkPath "Controller.kt") = Return text ->
  text = "Patient ID: 48213" \/ text = "Patient ID: 48213" ++ nl ->
  scan_file W self (mkPath "Controller.kt") out
  = (out,
     Return [ (1, "medical_ids", "Potential medical_ids: Patient ID: 48213");
              (1, "medical_terms", "Potential medical_terms: Patient ID") ]).
Proof.
  intros Hp Hr Ht.
  rewrite (scan_file_read W self _ text out);
    [| rewrite Hp; exact catalog_compiles | exact Hr].
  rewrite Hp. destruct Ht as [-> | ->]; vm_compute; reflexivity.
Qed.

Lemma C5_witness :
  scan_file (tree [("Controller.kt", "Patient ID: 48213")]) __init__
    (mkPath "Controller.kt") []
  = ([],
     Return [ (1, "medical_ids", "Potential medical_ids: Patient ID: 48213");
              (1, "medical_terms", "Potential medical_terms: Patient ID") ]).
Proof.
  apply (C5_patient_id_line_yields_two_violations
           (tree [("Controller.kt", "Patient ID: 48213")]) __init__
           "Patient ID: 48213" []).
  - reflexivity.
  - reflexivity.
  - left. reflexivity.
Defined.

(** The scan of that file does not return a single violation. *)
Lemma C5_counterexample :
  ~ exists v : violation,
      snd (scan_file (tree [("Controller.kt", "Patient ID: 48213")])
             __init__ (mkPath "Controller.kt") [])
      = Return [v].
Proof.
  intros [v H]. vm_compute in H. discriminate H.
Qed.

(** ** C6: two scans of the same input *)

(** C6. Two scans of the same tree, by two instances of the linter that
    may iterate their sets in different orders and start from the same
    accumulated list (two fresh instances, say), end with the same list of
    violations, element for element; and [scan_file] returns the same
    list for the same file. *)
Theorem C6_scans_of_the_same_input_agree
    (W : World.t) (root_dir : Path) (p1 p2 : process) :
  phi_patterns (self p1) = _load_phi_patterns ->
  phi_patterns (self p2) = _load_phi_patterns ->
  Permutation (excluded_dirs (self p1)) (excluded_dirs (self p2)) ->
  Permutation (excluded_files (self p1)) (excluded_files (self p2)) ->
  violations (self p1) = violations (self p2) ->
  violations (self (fst (scan_directory W root_dir p1)))
  = violations (self (fst (scan_directory W root_dir p2)))
  /\ forall file_path out1 out2,
       snd (scan_file W (self p1) file_path out1)
       = snd (scan_file W (self p2) file_path out2).
Proof.
  intros H1 H2 Hd Hf Hv. split.
  - rewrite !scan_directory_spec by (rewrite ?H1, ?H2; exact catalog_compiles).
    cbn [fst self violations set_violations]. rewrite Hv. f_equal.
    apply flat_map_ext. intros file_path.
    apply file_violations_stable; [now rewrite H1, H2 | exact Hd | exact Hf].
  - intros file_path out1 out2.
    rewrite !scan_file_found by (rewrite ?H1, ?H2; exact catalog_compiles).
    cbn [snd]. unfold found_in. now rewrite H1, H2.
Qed.

Lemma C6_witness :
  violations (self (fst (scan_directory
    (tree [ ("app/build/Gen.kt", "MRN: 12");
            ("app/Main.kt", "Patient ID: 48213") ])
    (mkPath ".") start)))
  = violations (self (fst (scan_directory
    (tree [ ("app/build/Gen.kt", "MRN: 12");
            ("app/Main.kt", "Patient ID: 48213") ])
    (mkPath ".") start_reversed))).
Proof.
  apply (C6_scans_of_the_same_input_agree _ (mkPath ".") start start_reversed).
  - reflexivity.
  - reflexivity.
  - apply Permutation_rev.
  - apply Permutation_rev.
  - reflexivity.
Defined.

(** ** C7: the report *)



(** A match may run up to the end of its line and take the newline with
    it: the entry of the report then ends with two. *)
Example entry_of_a_match_with_its_newline :
  written (fst (main (tree [("a/Note.md", "Diagnosis: flu" ++ nl)]) "."))
  = [ ("phi_violations.txt",
       "PHI Violations Detected:" ++ nl
       ++ "==================================================" ++ nl ++ nl
       ++ "a/Note.md:1 - Potential medical_terms: Diagnosis: flu" ++ nl ++ nl
       ++ nl ++ "Total violations: 1" ++ nl) ].
Proof. vm_compute. reflexivity. Qed.

(** ** C8: [scan_file] does not raise *)


(** An unreadable file, and a catalog whose second rule does not compile:
    the violation of the first rule is kept. *)
Example unreadable_file_is_reported :
  scan_file (tree []) __init__ (mkPath "gone.kt") []
  = (["Error scanning gone.kt: [Errno 2] No such file or directory: 'gone.kt'"],
     Return []).
Proof. vm_compute. reflexivity. Qed.

Example collected_so_far_is_returned :
  scan_file (tree [("a.txt", "code 123")])
    (PHILinter.mk [] [("digits", ["\d{3}"; "(\d"])] [] []) (mkPath "a.txt") []
  = (["Error scanning a.txt: error"],
     Return [(1, "digits", "Potential digits: 123")]).
Proof. vm_compute. reflexivity. Qed.

(** ** C9: exclusion by substring *)

(** C9. [scan_directory] skips every file whose path, as a string,
    contains one of the nine tokens anywhere: the entry leaves the
    process as it was, with nothing read, recorded or printed, also when
    the token lies inside an ordinary name, as [build] does in
    [rebuild.kt]. *)
Theorem C9_exclusion_is_by_substring
    (W : World.t) (p : process) (file_path : Path) (token : string) :
  excluded_dirs (self p) = excluded_dirs __init__ ->
  In token [ ".git"; ".gradle"; "build"; "node_modules"; ".idea";
             "venv"; "__pycache__"; ".pytest_cache"; "target" ] ->
  occurs token (str file_path) ->
  scan_entry W file_path p = (p, Return tt).
Proof.
  intros Hd Ht Ho. unfold scan_entry. unfold bind at 1. unfold get.
  cbv beta iota.
  destruct (World.is_file W file_path); [| reflexivity].
  assert (existsb (fun excluded => contains excluded (str file_path))
            (excluded_dirs (self p)) = true) as ->; [| reflexivity].
  apply existsb_exists. exists token. split.
  - rewrite Hd. exact Ht.
  - now apply contains_occurs.
Qed.

Lemma C9_witness :
  scan_entry (tree [("app/src/rebuild.kt", "Patient ID: 48213")])
    (mkPath "app/src/rebuild.kt") start
  = (start, Return tt).
Proof.
  apply (C9_exclusion_is_by_substring _ start (mkPath "app/src/rebuild.kt") "build").
  - reflexivity.
  - simpl. tauto.
  - exists "app/src/re", ".kt". reflexivity.
Defined.

(** Two files with the same text, side by side: only the one whose name
    contains no token is reported. *)
Example rebuild_is_skipped :
  violations (self (fst (main
    (tree [ ("app/src/rebuild.kt", "Patient ID: 48213");
            ("app/src/remake.kt", "Patient ID: 48213") ]) ".")))
  = [ "app/src/remake.kt:1 - Potential medical_ids: Patient ID: 48213";
      "app/src/remake.kt:1 - Potential medical_terms: Patient ID" ].
Proof. vm_compute. reflexivity. Qed.

(** ** C10: the comment test *)


(** The fourth scenario of the specification beside the same text in a
    block comment: the first is suppressed, the second is reported. *)
Example line_comment_is_suppressed :
  scan_line (tree []) __init__ (mkPath "Service.kt") 1
    "// Patient John Smith called" []
  = ([], Return tt).
Proof. vm_compute. reflexivity. Qed.

Example block_comment_is_reported :
  scan_line (tree []) __init__ (mkPath "Service.kt") 1
    "/* Patient John Smith called */" []
  = ([ (1, "names", "Potential names: Patient John Smith");
       (1, "names", "Potential names: Patient John Smith");
       (1, "medical_terms", "Potential medical_terms: Patient John Smith called ") ],
     Return tt).
Proof. vm_compute. reflexivity. Qed.

(* ================================================================== *)
(** * Further properties of the linter *)

Import Cli FurtherSpec FurtherFacts.

(** X1. Whatever [scan_file] returns points at real text: every tuple
    names a line number between 1 and the number of lines of the file, a
    category of the catalog, and a message [Potential <category>: <m>]
    where [m] is not empty, is a piece of the line with that number, and
    is accepted by the filter for that line and file. *)
Theorem reported_text_is_on_its_line
    (W : World.t) (self : PHILinter.t) (file_path : Path)
    (out out' : list string) (found : list violation) (v : violation) :
  phi_patterns self = _load_phi_patterns ->
  scan_file W self file_path out = (out', Return found) ->
  In v found ->
  exists text line category rules m,
    World.read W file_path = Return text
    /\ 1 <= fst (fst v) <= List.length (readlines text)
    /\ nth_error (readlines text) (fst (fst v) - 1) = Some line
    /\ In (category, rules) _load_phi_patterns
    /\ snd (fst v) = category
    /\ snd v = "Potential " ++ category ++ ": " ++ m
    /\ m <> "" /\ occurs m line
    /\ _is_false_positive m line file_path = false.
Proof.
  intros Hp Hs Hv.
  rewrite scan_file_found in Hs by (rewrite Hp; exact catalog_compiles).
  injection Hs as _ <-. unfold found_in in Hv.
  destruct (World.read W file_path) as [text|e]; [| contradiction].
  rewrite Hp in Hv. unfold collected in Hv.
  apply in_flat_map in Hv as [[n line] [Hn Hv]]. cbn [fst snd] in Hv.
  apply enumerate_In in Hn as [Hb Hnth].
  apply emitted_In in Hv as [category [rules [rule [m [Hc [Hr [Hm [Ha ->]]]]]]]].
  destruct (occurrence_on_the_line category rules rule line m Hc Hr Hm) as [Hne Ho].
  exists text, line, category, rules, m. cbn [potential fst snd].
  repeat split; try assumption; try reflexivity; lia.
Qed.

Lemma reported_text_is_on_its_line_witness :
  exists text line category rules m,
    World.read (tree [("Notes.md", "hello" ++ nl ++ "contact: jane.doe@example.com")])
               (mkPath "Notes.md") = Return text
    /\ 1 <= 2 <= List.length (readlines text)
    /\ nth_error (readlines text) (2 - 1) = Some line
    /\ In (category, rules) _load_phi_patterns
    /\ "email_addresses" = category
    /\ "Potential email_addresses: jane.doe@example.com"
       = "Potential " ++ category ++ ": " ++ m
    /\ m <> "" /\ occurs m line
    /\ _is_false_positive m line (mkPath "Notes.md") = false.
Proof.
  apply (reported_text_is_on_its_line
           (tree [("Notes.md", "hello" ++ nl ++ "contact: jane.doe@example.com")])
           __init__ (mkPath "Notes.md") [] []
           [(2, "email_addresses", "Potential email_addresses: jane.doe@example.com")]
           (2, "email_addresses", "Potential email_addresses: jane.doe@example.com")).
  - reflexivity.
  - vm_compute. reflexivity.
  - now left.
Defined.

(** X2. [scan_file] returns its tuples in the order of the lines: their
    line numbers never decrease along the list, and start at 1 or
    later. *)
Theorem violations_follow_the_lines
    (W : World.t) (self : PHILinter.t) (file_path : Path) (out : list string) :
  phi_patterns self = _load_phi_patterns ->
  exists out' found,
    scan_file W self file_path out = (out', Return found)
    /\ ascending 1 (map (fun v : violation => fst (fst v)) found).
Proof.
  intros Hp.
  rewrite scan_file_found by (rewrite Hp; exact catalog_compiles).
  eexists. eexists. split; [reflexivity |].
  unfold found_in. destruct (World.read W file_path) as [text|e]; [| exact I].
  apply collected_ascending.
Qed.

Lemma violations_follow_the_lines_witness :
  exists out' found,
    scan_file (tree [("a.md", "MRN 7" ++ nl ++ "x" ++ nl ++ "Patient ID: 48213")])
      __init__ (mkPath "a.md") [] = (out', Return found)
    /\ ascending 1 (map (fun v : violation => fst (fst v)) found).
Proof.
  apply violations_follow_the_lines. reflexivity.
Defined.

(** X3. The three tests of the filter that look at the line alone
    silence the whole line, in every file and whatever it contains: a line
    that begins with [//] or [#] after its leading white space, or
    contains [\b], [\d] or [\w], or contains "pattern", "regex" or
    "format" in any case (inside another word too, as in "information"),
    yields nothing. *)
Theorem line_tests_suppress_the_line
    (W : World.t) (self : PHILinter.t) (file_path : Path) (line_num : nat)
    (line : string) (acc : list violation) :
  phi_patterns self = _load_phi_patterns ->
  comment_line line \/ escape_sequence line \/ pattern_prose line ->
  scan_line W self file_path line_num line acc = (acc, Return tt).
Proof.
  intros Hp Hl.
  rewrite loop_line by (rewrite Hp; exact catalog_compiles).
  rewrite emitted_none; [now rewrite app_nil_r |].
  intros m. apply line_suppressed_rejects. now apply line_suppressed_spec.
Qed.

Lemma line_tests_suppress_the_line_witness :
  scan_line (tree []) __init__ (mkPath "Intake.kt") 4
    "Patient John Smith, MRN 12345: see information sheet" []
  = ([], Return tt).
Proof.
  apply line_tests_suppress_the_line.
  - reflexivity.
  - right. right. right. right.
    exists "Patient John Smith, MRN 12345: see in", "format", "ion sheet".
    split; reflexivity.
Defined.





(** X6. Of the path of a file, [scan_file] uses the final component
    only: two files with the same name and the same text yield the same
    tuples, wherever they lie (a directory named [test] does not make a
    test file). *)
Theorem only_the_name_of_the_file_matters
    (W : World.t) (self : PHILinter.t) (p1 p2 : Path) (out1 out2 : list string) :
  phi_patterns self = _load_phi_patterns ->
  name p1 = name p2 ->
  World.read W p1 = World.read W p2 ->
  snd (scan_file W self p1 out1) = snd (scan_file W self p2 out2).
Proof.
  intros Hp Hn Hr.
  rewrite !scan_file_found by (rewrite Hp; exact catalog_compiles).
  cbn [snd]. unfold found_in. rewrite Hr.
  destruct (World.read W p2) as [text|e]; [| reflexivity].
  f_equal. unfold collected. apply flat_map_ext. intros nl.
  now apply emitted_by_name.
Qed.

Lemma only_the_name_of_the_file_matters_witness :
  snd (scan_file (tree [ ("src/main/Patient.kt", "user: sample 9876543210");
                         ("src/test/Patient.kt", "user: sample 9876543210") ])
         __init__ (mkPath "src/main/Patient.kt") [])
  = snd (scan_file (tree [ ("src/main/Patient.kt", "user: sample 9876543210");
                           ("src/test/Patient.kt", "user: sample 9876543210") ])
           __init__ (mkPath "src/test/Patient.kt") []).
Proof.
  apply only_the_name_of_the_file_matters; reflexivity.
Defined.

(** X7. Lines are scanned one by one: for a text made of complete lines
    followed by more text, [scan_file] returns what it returns for the
    first part, followed by what it returns for the second part with the
    line numbers moved down by the number of lines of the first. *)
Theorem lines_are_scanned_one_by_one
    (W1 W2 W : World.t) (self : PHILinter.t) (file_path : Path)
    (head tail : string) (out : list string) :
  phi_patterns self = _load_phi_patterns ->
  World.read W1 file_path = Return (head ++ nl) ->
  World.read W2 file_path = Return tail ->
  World.read W file_path = Return (head ++ nl ++ tail) ->
  exists found1 found2,
    scan_file W1 self file_path out = (out, Return found1)
    /\ scan_file W2 self file_path out = (out, Return found2)
    /\ scan_file W self file_path out
       = (out, Return (found1 ++
                       map (shift (List.length (readlines (head ++ nl)))) found2)%list).
Proof.
  intros Hp H1 H2 H.
  assert (Hc : all_compile (phi_patterns self) = true)
    by (rewrite Hp; exact catalog_compiles).
  rewrite (scan_file_read W1 self file_path _ out Hc H1).
  rewrite (scan_file_read W2 self file_path _ out Hc H2).
  rewrite (scan_file_read W self file_path _ out Hc H).
  eexists. eexists. split; [reflexivity |]. split; [reflexivity |].
  do 2 f_equal. unfold collected, numbered_lines.
  rewrite readlines_app, enumerate_app, flat_map_app. f_equal.
  apply collected_shift.
Qed.

Lemma lines_are_scanned_one_by_one_witness :
  exists found1 found2,
    scan_file (tree [("a.md", "MRN 7" ++ nl)]) __init__ (mkPath "a.md") []
    = ([], Return found1)
    /\ scan_file (tree [("a.md", "Patient ID: 48213")]) __init__ (mkPath "a.md") []
       = ([], Return found2)
    /\ scan_file (tree [("a.md", "MRN 7" ++ nl ++ "Patient ID: 48213")]) __init__
         (mkPath "a.md") []
       = ([], Return (found1 ++
                      map (shift (List.length (readlines ("MRN 7" ++ nl)))) found2)%list).
Proof.
  apply (lines_are_scanned_one_by_one
           (tree [("a.md", "MRN 7" ++ nl)]) (tree [("a.md", "Patient ID: 48213")])
           (tree [("a.md", "MRN 7" ++ nl ++ "Patient ID: 48213")])
           __init__ (mkPath "a.md") "MRN 7" "Patient ID: 48213" []);
    reflexivity.
Defined.







(** X12. An entry of the walk that is not a regular file, or is named
    [phi_linter.py], [phi_violations.txt] or [.gitignore] (in any
    directory), or whose suffix is not one of the eight scanned ones as
    they are written (so [.MD] is not), counts for nothing: the walk with
    it does what the walk without it does. *)
Theorem entries_that_are_not_scanned
    (W : World.t) (p : process) (file_path : Path) (before after : list Path) :
  phi_patterns (self p) = _load_phi_patterns ->
  excluded_files (self p) = excluded_files __init__ ->
  World.is_file W file_path = false
  \/ In (name file_path) ["phi_linter.py"; "phi_violations.txt"; ".gitignore"]
  \/ ~ In (suffix file_path)
          [".kt"; ".java"; ".xml"; ".json"; ".md"; ".txt"; ".yml"; ".yaml"] ->
  for_ (before ++ file_path :: after) (scan_entry W) p
  = for_ (before ++ after) (scan_entry W) p.
Proof.
  intros Hp Hf Hs.
  assert (Hc : all_compile (phi_patterns (self p)) = true)
    by (rewrite Hp; exact catalog_compiles).
  rewrite !for_app. unfold bind.
  rewrite (scan_entries_spec W before p Hc).
  cbn [for_]. unfold bind.
  rewrite scan_entry_skips; [reflexivity |].
  cbn [self]. unfold scanned. cbn [excluded_files excluded_dirs set_violations].
  rewrite Hf. destruct Hs as [H | [H | H]].
  - now rewrite H.
  - apply mem_In in H. cbn [excluded_files __init__]. rewrite H.
    now rewrite andb_false_r.
  - destruct (mem (suffix file_path) scanned_suffixes) eqn:E.
    + apply mem_In in E. contradiction.
    + now rewrite andb_false_r.
Qed.

Lemma entries_that_are_not_scanned_witness :
  for_ ([mkPath "app/Main.kt"] ++ mkPath "out/phi_violations.txt" :: [mkPath "README.md"])
       (scan_entry (tree [ ("app/Main.kt", "Patient ID: 48213");
                           ("out/phi_violations.txt", "app/Main.kt:1 - Potential medical_ids: Patient ID: 48213");
                           ("README.md", "MRN 7") ]))
       start
  = for_ ([mkPath "app/Main.kt"] ++ [mkPath "README.md"])
       (scan_entry (tree [ ("app/Main.kt", "Patient ID: 48213");
                           ("out/phi_violations.txt", "app/Main.kt:1 - Potential medical_ids: Patient ID: 48213");
                           ("README.md", "MRN 7") ]))
       start.
Proof.
  apply entries_that_are_not_scanned.
  - reflexivity.
  - reflexivity.
  - right. left. simpl. tauto.
Defined.

(** X13. With the linter's catalog the only exception [scan_file] meets
    comes from opening or reading the file, before anything is
    collected: a readable file prints nothing, an unreadable one prints
    one error line and yields the empty list, and a list cut short by a
    failure is never returned. *)
Theorem nothing_is_returned_after_a_failure
    (W : World.t) (self : PHILinter.t) (file_path : Path) (out : list string) :
  phi_patterns self = _load_phi_patterns ->
  (forall so_far e,
     scan_file_try W self file_path [] = (so_far, Raise e) ->
     so_far = [] /\ World.read W file_path = Raise e)
  /\ (forall text, World.read W file_path = Return text ->
        fst (scan_file W self file_path out) = out)
  /\ (forall e, World.read W file_path = Raise e ->
        scan_file W self file_path out
        = ((out ++ [error_line file_path e])%list, Return [])).
Proof.
  intros Hp.
  assert (Hc : all_compile (phi_patterns self) = true)
    by (rewrite Hp; exact catalog_compiles).
  split; [| split].
  - intros so_far e H. destruct (World.read W file_path) as [text|e'] eqn:Hr.
    + rewrite (scan_file_try_read W self file_path text Hc Hr) in H. discriminate.
    + unfold scan_file_try in H. rewrite Hr in H. unfold raise in H.
      injection H as <- <-. now split.
  - intros text Hr. now rewrite (scan_file_read W self file_path text out Hc Hr).
  - intros e Hr. now apply scan_file_unreadable.
Qed.

Lemma nothing_is_returned_after_a_failure_witness :
  (forall so_far e,
     scan_file_try (locked ["a.kt"]) __init__ (mkPath "a.kt") [] = (so_far, Raise e) ->
     so_far = [] /\ World.read (locked ["a.kt"]) (mkPath "a.kt") = Raise e)
  /\ (forall text, World.read (locked ["a.kt"]) (mkPath "a.kt") = Return text ->
        fst (scan_file (locked ["a.kt"]) __init__ (mkPath "a.kt") []) = [])
  /\ (forall e, World.read (locked ["a.kt"]) (mkPath "a.kt") = Raise e ->
        scan_file (locked ["a.kt"]) __init__ (mkPath "a.kt") []
        = (([] ++ [error_line (mkPath "a.kt") e])%list, Return [])).
Proof.
  apply nothing_is_returned_after_a_failure. reflexivity.
Defined.



(** X15. The order in which the walk yields the files decides the order
    of the violations and nothing else: two runs over the same files
    walked in different orders find the same violations up to their
    order, count as many, and end with the same exit code. *)
Theorem the_order_of_the_walk_does_not_decide
    (W1 W2 : World.t) (root_dir : string) :
  World.exists_ W1 (mkPath root_dir) = true ->
  World.exists_ W2 (mkPath root_dir) = true ->
  World.open_w W1 "phi_violations.txt" = None ->
  World.open_w W2 "phi_violations.txt" = None ->
  Permutation (World.rglob W1 (mkPath root_dir)) (World.rglob W2 (mkPath root_dir)) ->
  (forall file_path, World.is_file W1 file_path = World.is_file W2 file_path) ->
  (forall file_path, World.read W1 file_path = World.read W2 file_path) ->
  Permutation (violations (self (fst (main W1 root_dir))))
              (violations (self (fst (main W2 root_dir))))
  /\ violation_count W1 root_dir = violation_count W2 root_dir
  /\ exit_code W1 root_dir = exit_code W2 root_dir.
Proof.
  intros He1 He2 Ho1 Ho2 Hp Hi Hr.
  unfold violation_count, exit_code.
  destruct (main_reports W1 root_dir He1 Ho1) as [out1 ->].
  destruct (main_reports W2 root_dir He2 Ho2) as [out2 ->].
  cbn [fst snd self violations set_violations].
  assert (HP : Permutation
    (flat_map (file_violations W1 __init__) (World.rglob W1 (mkPath root_dir)))
    (flat_map (file_violations W2 __init__) (World.rglob W2 (mkPath root_dir)))).
  { rewrite (flat_map_agree (file_violations W1 __init__) (file_violations W2 __init__))
      by (intros x _; now apply file_violations_agree).
    now apply Permutation_flat_map. }
  split; [exact HP |]. pose proof (Permutation_length HP) as Hl.
  split; [exact Hl |].
  destruct (flat_map (file_violations W1 __init__) _),
           (flat_map (file_violations W2 __init__) _); simpl in Hl;
    try reflexivity; discriminate.
Qed.

Lemma the_order_of_the_walk_does_not_decide_witness :
  Permutation
    (violations (self (fst (main (tree [ ("a/Main.kt", "Patient ID: 48213");
                                         ("b/Notes.md", "MRN 7") ]) "."))))
    (violations (self (fst (main (tree [ ("b/Notes.md", "MRN 7");
                                         ("a/Main.kt", "Patient ID: 48213") ]) "."))))
  /\ violation_count (tree [ ("a/Main.kt", "Patient ID: 48213");
                             ("b/Notes.md", "MRN 7") ]) "."
     = violation_count (tree [ ("b/Notes.md", "MRN 7");
                               ("a/Main.kt", "Patient ID: 48213") ]) "."
  /\ exit_code (tree [ ("a/Main.kt", "Patient ID: 48213");
                       ("b/Notes.md", "MRN 7") ]) "."
     = exit_code (tree [ ("b/Notes.md", "MRN 7");
                         ("a/Main.kt", "Patient ID: 48213") ]) ".".
Proof.
  apply the_order_of_the_walk_does_not_decide; try reflexivity.
  - apply perm_swap.
  - intros file_path. unfold tree, World.is_file, lookup.
    destruct (String.eqb "a/Main.kt" (str file_path)) eqn:Ea,
             (String.eqb "b/Notes.md" (str file_path)) eqn:Eb; reflexivity.
  - intros file_path. unfold tree, World.read, lookup.
    destruct (String.eqb "a/Main.kt" (str file_path)) eqn:Ea,
             (String.eqb "b/Notes.md" (str file_path)) eqn:Eb; try reflexivity.
    apply String.eqb_eq in Ea, Eb. congruence.
Defined.

(** X16. Files are scanned one by one: what a walk adds to
    [self.violations] is what its first entries add followed by what its
    last entries add on their own, whatever was found before. *)
Theorem files_are_scanned_one_by_one
    (W : World.t) (p : process) (first second : list Path) :
  phi_patterns (self p) = _load_phi_patterns ->
  violations (self (fst (for_ (first ++ second) (scan_entry W) p)))
  = (violations (self (fst (for_ first (scan_entry W) p)))
     ++ violations (self (fst (for_ second (scan_entry W)
                                 (mkProcess (set_violations (self p) []) [] []))))
    )%list.
Proof.
  intros Hp.
  assert (Hc : all_compile (phi_patterns (self p)) = true)
    by (rewrite Hp; exact catalog_compiles).
  rewrite !scan_entries_spec by exact Hc.
  cbn [fst self violations set_violations app].
  now rewrite flat_map_app, app_assoc.
Qed.

Lemma files_are_scanned_one_by_one_witness :
  violations (self (fst (for_ ([mkPath "a/Main.kt"] ++ [mkPath "b/Notes.md"])
    (scan_entry (tree [("a/Main.kt", "Patient ID: 48213"); ("b/Notes.md", "MRN 7")]))
    start)))
  = (violations (self (fst (for_ [mkPath "a/Main.kt"]
       (scan_entry (tree [("a/Main.kt", "Patient ID: 48213"); ("b/Notes.md", "MRN 7")]))
       start)))
     ++ violations (self (fst (for_ [mkPath "b/Notes.md"]
          (scan_entry (tree [("a/Main.kt", "Patient ID: 48213"); ("b/Notes.md", "MRN 7")]))
          (mkProcess (set_violations (self start) []) [] []))))
    )%list.
Proof.
  apply files_are_scanned_one_by_one. reflexivity.
Defined.



(** X18. The scan of a readable file returns at most 27 tuples for each
    character of the file: each of the 27 rules takes at least one character
    at each of its occurrences, the occurrences of one rule in a line do not
    overlap, the filter only removes, and the lines have no more characters
    than the file. In particular an empty file yields none. *)
Theorem a_file_yields_a_bounded_number
    (W : World.t) (self : PHILinter.t) (file_path : Path) (text : string)
    (out : list string) :
  phi_patterns self = _load_phi_patterns ->
  World.read W file_path = Return text ->
  exists found,
    scan_file W self file_path out = (out, Return found)
    /\ List.length found <= 27 * String.length text.
Proof.
  intros Hp Hr. exists (collected (phi_patterns self) file_path text). split.
  - apply scan_file_read; [rewrite Hp; exact catalog_compiles | exact Hr].
  - rewrite Hp. unfold collected, numbered_lines.
    pose proof (collected_count _load_phi_patterns file_path (readlines text)
                  catalog_takes_something 1) as H.
    pose proof (readlines_characters text) as Hc.
    change (List.length (rules_of _load_phi_patterns)) with 27 in H. nia.
Qed.

Lemma a_file_yields_a_bounded_number_witness :
  exists found,
    scan_file (tree [("app/Main.kt", "Patient ID: 48213")]) __init__
              (mkPath "app/Main.kt") []
    = ([], Return found)
    /\ List.length found <= 27 * String.length "Patient ID: 48213".
Proof.
  apply a_file_yields_a_bounded_number; reflexivity.
Defined.
